(** * Connection lifecycle of element-call: a shallow embedding

    The development follows the TypeScript sources:
    - [utils/errors.ts]                    (module [Errors])
    - [utils/abortHandle.ts]               (module [AbortHandles])
    - [livekit/openIDSFU.ts]               (module [OpenIDSFU])
    - [rtcSessionHelpers.ts]               (module [RtcSessionHelpers])
    - [livekit/useECConnectionState.ts]    (module [ECConnectionState])
    - [livekit/useLivekit.ts]              (modules [Livekit], [DeviceSync])
    - [rtcSessionHelpers.ts], [room/GroupCallView.tsx]
                                           (module [RtcSessionLifecycle])
    - [livekit/openIDSFU.ts]               (module [UseOpenIDSFU])
    - [room/useActiveFocus.ts]             (module [ActiveFocus])
    - [room/MuteStates.ts]                 (module [MuteStates])
    - [livekit/MatrixAudioRenderer.tsx]    (module [MatrixAudioRenderer])
    and states their properties in the modules whose names end in
    [_Facts].

    Asynchronous functions are run to completion in a state monad whose
    state records the effects performed on the collaborators (the LiveKit
    room, the logger), in order; what the collaborators answer, and when
    React unmounts the component, is read from an environment record.  A
    promise of a collaborator may reject wherever the sources await it or
    give it a [.catch]. *)

From stdpp Require Import base strings list gmap option pretty.
From Equations Require Import Equations.

Open Scope Z_scope.
Open Scope string_scope.

(** ** utils/errors.ts *)

Module Errors.

Inductive ErrorCode : Type :=
| MISSING_MATRIX_RTC_FOCUS
| CONNECTION_LOST_ERROR
| MEMBERSHIP_MANAGER_UNRECOVERABLE
| INSUFFICIENT_CAPACITY_ERROR
| E2EE_NOT_SUPPORTED
| OPEN_ID_ERROR
| UNKNOWN_ERROR.

Inductive ErrorCategory : Type :=
| CONFIGURATION_ISSUE
| NETWORK_CONNECTIVITY
| RTC_SESSION_FAILURE
| CLIENT_CONFIGURATION
| UNKNOWN.

(** livekit-client's [ConnectionErrorReason]. *)
Inductive ConnectionErrorReason : Type :=
| NotAllowed
| ServerUnreachable
| InternalError
| Cancelled
| LeaveRequest.

(** The instances of [Error] the sources create or test for.  [PlainError]
    is any error that is neither a [ConnectionError] nor an
    [ElementCallError]: [new Error(..)], a [TypeError], a [DOMException];
    it keeps its [name] and [message]. *)
Inductive JsError : Type :=
| PlainError (name message : string)
| ConnectionError (message : string) (reason : ConnectionErrorReason)
    (status : option Z)
| MatrixRTCFocusMissingError (domain : string)
| ConnectionLostError
| RTCSessionError (code : ErrorCode) (message : string)
| E2EENotSupportedError
| UnknownCallError (error : JsError)
| FailToGetOpenIdToken (error : JsError)
| InsufficientCapacityError.

(** [new Error(message)] *)
Definition Error_ (message : string) : JsError := PlainError "Error" message.

(** [e instanceof ElementCallError] *)
Definition isElementCallError (e : JsError) : bool :=
  match e with
  | PlainError _ _ | ConnectionError _ _ _ => false
  | _ => true
  end.

(** The [code] each subclass passes to the [ElementCallError] constructor. *)
Definition code (e : JsError) : option ErrorCode :=
  match e with
  | PlainError _ _ | ConnectionError _ _ _ => None
  | MatrixRTCFocusMissingError _ => Some MISSING_MATRIX_RTC_FOCUS
  | ConnectionLostError => Some CONNECTION_LOST_ERROR
  | RTCSessionError c _ => Some c
  | E2EENotSupportedError => Some E2EE_NOT_SUPPORTED
  | UnknownCallError _ => Some UNKNOWN_ERROR
  | FailToGetOpenIdToken _ => Some OPEN_ID_ERROR
  | InsufficientCapacityError => Some INSUFFICIENT_CAPACITY_ERROR
  end.

Definition category (e : JsError) : option ErrorCategory :=
  match e with
  | PlainError _ _ | ConnectionError _ _ _ => None
  | MatrixRTCFocusMissingError _ => Some CONFIGURATION_ISSUE
  | ConnectionLostError => Some NETWORK_CONNECTIVITY
  | RTCSessionError _ _ => Some RTC_SESSION_FAILURE
  | E2EENotSupportedError => Some CLIENT_CONFIGURATION
  | UnknownCallError _ => Some UNKNOWN
  | FailToGetOpenIdToken _ => Some CONFIGURATION_ISSUE
  | InsufficientCapacityError => Some UNKNOWN
  end.

(** The [cause] handed to [super(..., { cause })]. *)
Definition cause (e : JsError) : option JsError :=
  match e with
  | UnknownCallError c | FailToGetOpenIdToken c => Some c
  | _ => None
  end.

(** What a [throw] or a rejected promise carries: JavaScript lets any value
    be thrown, and the handlers below test [instanceof Error]. *)
Inductive Thrown : Type :=
| ThrownError (e : JsError)
| ThrownValue (v : string).

(** [name] and [message] of an error; for an [ElementCallError] the message
    is its localised title, kept as the i18n key. *)
Definition error_name (e : JsError) : string :=
  match e with
  | PlainError n _ => n
  | ConnectionError _ _ _ => "ConnectionError"
  | _ => "Error"
  end.

Definition error_message (e : JsError) : string :=
  match e with
  | PlainError _ m | ConnectionError m _ _ => m
  | MatrixRTCFocusMissingError _ => "error.call_is_not_supported"
  | ConnectionLostError => "error.connection_lost"
  | RTCSessionError _ _ => "RTCSession Error"
  | E2EENotSupportedError => "error.e2ee_unsupported"
  | UnknownCallError _ | FailToGetOpenIdToken _ => "error.generic"
  | InsufficientCapacityError => "error.insufficient_capacity"
  end.

(** [Error.prototype.toString] *)
Definition error_toString (e : JsError) : string :=
  let n := error_name e in
  let m := error_message e in
  if bool_decide (n = "") then m
  else if bool_decide (m = "") then n
  else n +:+ ": " +:+ m.

(** ["" + e] *)
Definition toString (t : Thrown) : string :=
  match t with
  | ThrownError e => error_toString e
  | ThrownValue v => v
  end.

End Errors.
Export Errors.

(** ** Completions and the effect monad *)

(** How a block of statements ends: it falls through with a value, executes
    a [return;] of the enclosing (void) function, or throws. *)
Inductive Completion (A : Type) : Type :=
| Normal (a : A)
| Returned
| Threw (t : Thrown).
Arguments Normal {A} a.
Arguments Returned {A}.
Arguments Threw {A} t.

(** How an awaited promise settles. *)
Inductive Settled (A : Type) : Type :=
| Resolves (a : A)
| Rejects (t : Thrown).
Arguments Resolves {A} a.
Arguments Rejects {A} t.

Definition M (S A : Type) : Type := S → Completion A * S.

#[global] Instance M_ret {S} : MRet (M S) := λ A a s, (Normal a, s).
#[global] Instance M_bind {S} : MBind (M S) := λ A B f m s,
  match m s with
  | (Normal a, s') => f a s'
  | (Returned, s') => (Returned, s')
  | (Threw t, s') => (Threw t, s')
  end.

Section Monad.
Context {S : Type}.

Definition gets {A} (f : S → A) : M S A := λ s, (Normal (f s), s).
Definition modify (f : S → S) : M S unit := λ s, (Normal tt, f s).
(** [return;] *)
Definition return_ {A} : M S A := λ s, (Returned, s).
(** [throw t;] *)
Definition throw {A} (t : Thrown) : M S A := λ s, (Threw t, s).
(** The value of [await p] for a promise settled as [p]. *)
Definition settle {A} (p : Settled A) : M S A :=
  match p with Resolves a => mret a | Rejects t => throw t end.

(** [try { body } catch (e) { handler e }] *)
Definition try_catch {A} (body : M S A) (handler : Thrown → M S A) : M S A :=
  λ s, match body s with
       | (Threw t, s') => handler t s'
       | r => r
       end.

(** [try { body } finally { final }], for a [final] that neither returns
    nor throws. *)
Definition try_finally {A} (body : M S A) (final : M S unit) : M S A :=
  λ s, match body s with
       | (r, s') => (r, snd (final s'))
       end.

(** A void function body: a [return;] ends the call normally. *)
Definition function_ (body : M S unit) : M S unit :=
  λ s, match body s with
       | (Returned, s') => (Normal tt, s')
       | r => r
       end.

(** The promise an async void function returns, once settled. *)
Definition outcome (r : Completion unit) : Settled unit :=
  match r with
  | Normal _ | Returned => Resolves tt
  | Threw t => Rejects t
  end.

End Monad.

(** [logger.debug / info / log / warn / error]: the entries keep the
    message; interpolated values are appended to it. *)
Inductive LogLevel : Type := LogDebug | LogInfo | LogLog | LogWarn | LogError.

#[global] Instance LogLevel_eq_dec : EqDecision LogLevel.
Proof. solve_decision. Defined.

Definition LogEntry : Type := LogLevel * string.

(** ** utils/abortHandle.ts *)

Module AbortHandles.

Record AbortHandle : Type := { aborted : bool }.

(** [new AbortHandle()] : the constructor's default is [aborted = false]. *)
Definition new_AbortHandle : AbortHandle := {| aborted := false |}.

(** [abort()] *)
Definition abort (h : AbortHandle) : AbortHandle := {| aborted := true |}.

(** [isAborted()] *)
Definition isAborted (h : AbortHandle) : bool := aborted h.

End AbortHandles.

(** ** livekit/openIDSFU.ts *)

Module OpenIDSFU.

(** [interface SFUConfig { url: string; jwt: string }].  At run time the
    controller also passes the copy [Object.assign({}, sfuConfig)], which
    is the empty object when [sfuConfig] is undefined: a field is [None]
    when the object lacks it. *)
Record SFUConfig : Type := { url : option string; jwt : option string }.

#[global] Instance SFUConfig_eq_dec : EqDecision SFUConfig.
Proof. solve_decision. Defined.

(** [a === b] on (possibly undefined) strings. *)
Definition strict_eq (a b : option string) : bool := bool_decide (a = b).

Definition sfuConfigEquals (a b : option SFUConfig) : bool :=
  if bool_decide (a = None) && bool_decide (b = None) then true
  else if bool_decide (a = None) || bool_decide (b = None) then false
  else match a, b with
       | Some a, Some b => strict_eq (jwt a) (jwt b) && strict_eq (url a) (url b)
       | _, _ => false
       end.

Record IOpenIDToken : Type := {
  access_token : string;
  token_type : string;
  matrix_server_name : string;
  expires_in : Z;
}.

(** [LivekitFocus] as this file reads it. *)
Record LivekitFocus : Type := {
  livekit_service_url : string;
  livekit_alias : string;
}.

(** The request [getLiveKitJWT] posts. *)
Record Request : Type := {
  req_url : string;
  req_method : string;
  req_content_type : string;
  req_room : string;
  req_openid_token : IOpenIDToken;
  req_device_id : option string;
}.

(** The parts of the [Response] that are read; [json] is the promise
    [res.json()] returns. *)
Record Response : Type := {
  ok : bool;
  status : Z;
  json : Settled SFUConfig;
}.

(** [OpenIDClientParts], with [getOpenIdToken] already passed through
    [doNetworkOperationWithRetry] (utils/matrix, the retry collaborator):
    the field is how that promise settles. *)
Record OpenIDClientParts : Type := {
  getOpenIdToken_withRetry : Settled IOpenIDToken;
  getDeviceId : option string;
}.

Section WithFetch.
(** The global [fetch]. *)
Variable fetch : Request → Settled Response.

Definition log (l : LogLevel) (msg : string) : M (list LogEntry) unit :=
  modify (λ logs, (logs ++ [(l, msg)])%list).

Definition getLiveKitJWT (client : OpenIDClientParts)
    (livekitServiceURL roomName : string) (openIDToken : IOpenIDToken)
  : M (list LogEntry) SFUConfig :=
  try_catch
    (res ← settle (fetch {| req_url := livekitServiceURL +:+ "/sfu/get";
                            req_method := "POST";
                            req_content_type := "application/json";
                            req_room := roomName;
                            req_openid_token := openIDToken;
                            req_device_id := getDeviceId client |});
     if negb (ok res) then
       throw (ThrownError (Error_
         ("SFU Config fetch failed with status code " +:+ pretty (status res))))
     else settle (json res))
    (λ e, throw (ThrownError (Error_
         ("SFU Config fetch failed with exception " +:+ toString e)))).

Definition getSFUConfigWithOpenID (client : OpenIDClientParts)
    (activeFocus : LivekitFocus) : M (list LogEntry) (option SFUConfig) :=
  openIdToken ←
    try_catch (settle (getOpenIdToken_withRetry client))
      (λ error, throw (ThrownError (FailToGetOpenIdToken
         match error with
         | ThrownError e => e
         | ThrownValue _ => Error_ "Unknown error"
         end)));
  log LogDebug "Got openID token";;
  try_catch
    (log LogInfo ("Trying to get JWT from call's active focus URL of "
                  +:+ livekit_service_url activeFocus +:+ "...");;
     sfuConfig ← getLiveKitJWT client (livekit_service_url activeFocus)
                   (livekit_alias activeFocus) openIdToken;
     log LogInfo "Got JWT from call's active focus URL.";;
     mret (Some sfuConfig))
    (λ e,
     log LogWarn ("Failed to get JWT from RTC session's active focus URL of "
                  +:+ livekit_service_url activeFocus +:+ ".");;
     mret None).

(** The promise [getSFUConfigWithOpenID] returns. *)
Definition getSFUConfigWithOpenID_promise (client : OpenIDClientParts)
    (activeFocus : LivekitFocus) : Settled (option SFUConfig) :=
  match fst (getSFUConfigWithOpenID client activeFocus []) with
  | Normal r => Resolves r
  | Returned => Resolves None
  | Threw t => Rejects t
  end.

End WithFetch.

End OpenIDSFU.

(** ** rtcSessionHelpers.ts *)

Module RtcSessionHelpers.

(** A focus is a JSON object; its fields are kept by name, so that the
    spread [{ ...wellKnownFocus, livekit_alias }] is an insertion. *)
Abbreviation JsObject := (gmap string string).

Definition FOCI_WK_KEY : string := "org.matrix.msc4143.rtc_foci".

(** A value of the raw client config: an array of entries, each an object
    or a falsy value ([None]: null and the like), or something that is not
    an array. *)
Inductive WkValue : Type :=
| WkNotArray
| WkArray (entries : list (option JsObject)).

(** What the function reads of the [MatrixRTCSession]. *)
Record MatrixRTCSession : Type := {
  roomId : string;                  (* rtcSession.room.roomId *)
  getDomain : option string;        (* rtcSession.room.client.getDomain() *)
  getFocusInUse : option JsObject;  (* rtcSession.getFocusInUse() *)
}.

Record Env : Type := {
  (** What [await AutoDiscovery.getRawClientConfig(domain)] yields: the
      config object, or undefined ([None]).  The SDK resolves with the
      empty config when the lookup fails, for every non-empty domain. *)
  getRawClientConfig : string → option (gmap string WkValue);
  (** [Config.get().livekit?.livekit_service_url] *)
  livekit_service_url_fromConf : option string;
}.

(** Truthiness of a string that may be null or undefined. *)
Definition truthy (s : option string) : bool :=
  match s with
  | Some s => negb (bool_decide (s = ""))
  | None => false
  end.

Section WithSdk.
(** matrix-js-sdk's type guards. *)
Variable isLivekitFocus : JsObject → bool.
Variable isLivekitFocusConfig : JsObject → bool.
Variable env : Env.

Definition log (l : LogLevel) (msg : string) : M (list LogEntry) unit :=
  modify (λ logs, (logs ++ [(l, msg)])%list).

(** [{ ...wellKnownFocus, livekit_alias: livekitAlias }] *)
Definition withAlias (livekitAlias : string) (wellKnownFocus : JsObject)
  : JsObject :=
  <["livekit_alias" := livekitAlias]> wellKnownFocus.

(** [{ type: "livekit", livekit_service_url: urlFromConf, livekit_alias }] *)
Definition focusFromConf (urlFromConf livekitAlias : string) : JsObject :=
  {[ "type" := "livekit";
     "livekit_service_url" := urlFromConf;
     "livekit_alias" := livekitAlias ]}.

(** [wellKnownFoci.filter((f) => !!f).filter(isLivekitFocusConfig)] *)
Definition livekitConfigs (wellKnownFoci : list (option JsObject))
  : list JsObject :=
  List.filter isLivekitFocusConfig (omap (λ f, f) wellKnownFoci).

Definition makePreferredLivekitFoci (rtcSession : MatrixRTCSession)
    (livekitAlias : string) : M (list LogEntry) (list JsObject) :=
  log LogLog ("Start building foci_preferred list: " +:+ roomId rtcSession);;
  let preferredFoci : list JsObject := [] in
  let focusInUse := getFocusInUse rtcSession in
  preferredFoci ←
    match focusInUse with
    | Some f =>
        if isLivekitFocus f then
          log LogLog "Adding livekit focus from oldest member: ";;
          mret (preferredFoci ++ [f])%list
        else mret preferredFoci
    | None => mret preferredFoci
    end;
  let domain := getDomain rtcSession in
  preferredFoci ←
    (if truthy domain then
       let raw := getRawClientConfig env (default "" domain) in
       match raw ≫= (λ config, config !! FOCI_WK_KEY) with
       | Some (WkArray wellKnownFoci) =>
           added ← mapM (λ wellKnownFocus,
                      log LogLog "Adding livekit focus from well known: ";;
                      mret (withAlias livekitAlias wellKnownFocus))
                    (livekitConfigs wellKnownFoci);
           mret (preferredFoci ++ added)%list
       | _ => mret preferredFoci
       end
     else mret preferredFoci);
  let urlFromConf := livekit_service_url_fromConf env in
  preferredFoci ←
    (if truthy urlFromConf then
       let focusFormConf := focusFromConf (default "" urlFromConf) livekitAlias in
       log LogLog "Adding livekit focus from config: ";;
       mret (preferredFoci ++ [focusFormConf])%list
     else mret preferredFoci);
  if bool_decide (length preferredFoci = 0%nat) then
    throw (ThrownError (MatrixRTCFocusMissingError (default "" domain)))
  else mret preferredFoci.

(** The promise [makePreferredLivekitFoci] returns. *)
Definition makePreferredLivekitFoci_promise (rtcSession : MatrixRTCSession)
    (livekitAlias : string) : Settled (list JsObject) :=
  match fst (makePreferredLivekitFoci rtcSession livekitAlias []) with
  | Normal foci => Resolves foci
  | Returned => Resolves []
  | Threw t => Rejects t
  end.

End WithSdk.

End RtcSessionHelpers.

(** ** livekit/useECConnectionState.ts *)

Module ECConnectionState.
Import AbortHandles OpenIDSFU.

(** livekit-client's [ConnectionState] with [ECAddonConnectionState]. *)
Inductive ECConnectionState : Type :=
| Disconnected
| Connecting
| Connected
| Reconnecting
| SignalReconnecting
| ECSwitchingFocus
| ECWaiting.

#[global] Instance ECConnectionState_eq_dec : EqDecision ECConnectionState.
Proof. solve_decision. Defined.

(** [Track.Source] *)
Inductive Source : Type :=
| Camera
| Microphone
| ScreenShare
| ScreenShareAudio
| UnknownSource.

#[global] Instance Source_eq_dec : EqDecision Source.
Proof. solve_decision. Defined.

(** A [LocalTrack] that [createTracks] hands out, by identity. *)
Definition LocalTrack : Type := nat.

(** A browser [MediaStreamTrack]: [clone()] yields a new object carrying the
    same media, told apart here by its clone generation. *)
Record MediaStreamTrack : Type := {
  mst_id : string;
  mst_generation : nat;
  enabled : bool;
}.

#[global] Instance MediaStreamTrack_eq_dec : EqDecision MediaStreamTrack.
Proof. solve_decision. Defined.

Definition clone (m : MediaStreamTrack) : MediaStreamTrack :=
  {| mst_id := mst_id m; mst_generation := S (mst_generation m);
     enabled := enabled m |}.

Definition set_enabled (b : bool) (m : MediaStreamTrack) : MediaStreamTrack :=
  {| mst_id := mst_id m; mst_generation := mst_generation m; enabled := b |}.

(** A [LocalTrackPublication]: [track] is [t.track.mediaStreamTrack] when
    [t.track] is set. *)
Record TrackPublication : Type := {
  track : option MediaStreamTrack;
  source : Source;
}.

(** The argument of [publishTrack]. *)
Inductive Publishable : Type :=
| OfLocalTrack (t : LocalTrack)
| OfMediaStreamTrack (m : MediaStreamTrack).

#[global] Instance Publishable_eq_dec : EqDecision Publishable.
Proof. unfold LocalTrack. solve_decision. Defined.

(** The effects performed on the room and the logger, in order. *)
Inductive Event : Type :=
| CreateTracks (deviceId : option string)
| Mute (t : LocalTrack)
| Stop (t : LocalTrack)
| Connect (url jwt : option string)
    (peerConnectionTimeout websocketTimeout : Z)
| PublishTrack (t : Publishable) (s : Source)
| Disconnect
| SentryMessage (msg : string)
| Log (l : LogLevel) (msg : string).

#[global] Instance Event_eq_dec : EqDecision Event.
Proof. solve_decision. Defined.

(** The two places where [doConnect] asks the local participant for its
    microphone publication. *)
Inductive CheckSite : Type := AtStart | AfterPreCreate.

(** The points where an attempt is suspended on a promise. *)
Inductive Suspension : Type :=
| AwaitCreateTracks
| AwaitMute
| AwaitConnect
| AwaitPublishMic
| AwaitDisconnect.

(** What the room answers, and when the component is unmounted. *)
Record Env : Type := {
  (** [localParticipant.getTrackPublication(Track.Source.Microphone)] is
      truthy *)
  hasMicrophonePublication : CheckSite → bool;
  createTracks : option string → Settled (list LocalTrack);
  (** how [track.mute()] settles *)
  mute : LocalTrack → Settled unit;
  connect : option string → option string → Settled unit;
  publishTrack : Publishable → Source → Settled unit;
  disconnect : Settled unit;
  (** [localParticipant.videoTrackPublications.values()] *)
  videoTrackPublications : list TrackPublication;
  (** React unmounts the component while the attempt is suspended there. *)
  unmountedDuring : Suspension → bool;
  window_peerConnectionTimeout : option Z;
  window_websocketTimeout : option Z;
}.

(** The hook's state, the heap of [AbortHandle] objects and the effects
    performed so far. *)
Record World : Type := {
  handles : gmap nat AbortHandle;
  abortHandlesBag : gset nat;
  trace : list Event;
  currentSFUConfig : SFUConfig;
  connState : ECConnectionState;
  isSwitchingFocus : bool;
  isInDoConnect : bool;
  error : option JsError;
}.

Definition set_handles (f : gmap nat AbortHandle → gmap nat AbortHandle)
    (w : World) : World :=
  {| handles := f (handles w); abortHandlesBag := abortHandlesBag w;
     trace := trace w; currentSFUConfig := currentSFUConfig w;
     connState := connState w; isSwitchingFocus := isSwitchingFocus w;
     isInDoConnect := isInDoConnect w; error := error w |}.

Definition set_bag (f : gset nat → gset nat) (w : World) : World :=
  {| handles := handles w; abortHandlesBag := f (abortHandlesBag w);
     trace := trace w; currentSFUConfig := currentSFUConfig w;
     connState := connState w; isSwitchingFocus := isSwitchingFocus w;
     isInDoConnect := isInDoConnect w; error := error w |}.

Definition set_trace (f : list Event → list Event) (w : World) : World :=
  {| handles := handles w; abortHandlesBag := abortHandlesBag w;
     trace := f (trace w); currentSFUConfig := currentSFUConfig w;
     connState := connState w; isSwitchingFocus := isSwitchingFocus w;
     isInDoConnect := isInDoConnect w; error := error w |}.

Definition set_currentSFUConfig (c : SFUConfig) (w : World) : World :=
  {| handles := handles w; abortHandlesBag := abortHandlesBag w;
     trace := trace w; currentSFUConfig := c;
     connState := connState w; isSwitchingFocus := isSwitchingFocus w;
     isInDoConnect := isInDoConnect w; error := error w |}.

Definition set_connState (c : ECConnectionState) (w : World) : World :=
  {| handles := handles w; abortHandlesBag := abortHandlesBag w;
     trace := trace w; currentSFUConfig := currentSFUConfig w;
     connState := c; isSwitchingFocus := isSwitchingFocus w;
     isInDoConnect := isInDoConnect w; error := error w |}.

Definition set_isSwitchingFocus (b : bool) (w : World) : World :=
  {| handles := handles w; abortHandlesBag := abortHandlesBag w;
     trace := trace w; currentSFUConfig := currentSFUConfig w;
     connState := connState w; isSwitchingFocus := b;
     isInDoConnect := isInDoConnect w; error := error w |}.

Definition set_isInDoConnect (b : bool) (w : World) : World :=
  {| handles := handles w; abortHandlesBag := abortHandlesBag w;
     trace := trace w; currentSFUConfig := currentSFUConfig w;
     connState := connState w; isSwitchingFocus := isSwitchingFocus w;
     isInDoConnect := b; error := error w |}.

Definition set_error (e : option JsError) (w : World) : World :=
  {| handles := handles w; abortHandlesBag := abortHandlesBag w;
     trace := trace w; currentSFUConfig := currentSFUConfig w;
     connState := connState w; isSwitchingFocus := isSwitchingFocus w;
     isInDoConnect := isInDoConnect w; error := e |}.

(** [Boolean(s)] for a string that may be undefined. *)
Definition Boolean_ (s : option string) : bool :=
  match s with
  | Some s => negb (bool_decide (s = ""))
  | None => false
  end.

Definition sfuConfigValid (sfuConfig : option SFUConfig) : bool :=
  Boolean_ (sfuConfig ≫= url) && Boolean_ (sfuConfig ≫= jwt).

(** [Object.assign({}, sfuConfig)] *)
Definition Object_assign (sfuConfig : option SFUConfig) : SFUConfig :=
  match sfuConfig with
  | Some c => {| url := url c; jwt := jwt c |}
  | None => {| url := None; jwt := None |}
  end.

(** [isAborted()] of the handle stored at [h]. *)
Definition aborted_at (h : nat) (w : World) : bool :=
  from_option isAborted false (handles w !! h).

(** The cleanup of the unmount effect:
    [bag.forEach((handle) => { handle.abort(); })]. *)
Definition unmount (w : World) : World :=
  set_handles
    (λ hs, set_fold (λ h acc, alter abort h acc) hs (abortHandlesBag w)) w.

Section WithEnv.
Variable env : Env.

Definition emit (e : Event) : M World unit :=
  modify (set_trace (λ t, (t ++ [e])%list)).

Definition log (l : LogLevel) (msg : string) : M World unit := emit (Log l msg).

(** The attempt is suspended at [sp]; it resumes after whatever React did
    meanwhile. *)
Definition suspend (sp : Suspension) : M World unit :=
  if unmountedDuring env sp then modify unmount else mret tt.

(** [await call], where [call] performs [e] on the room and returns a
    promise that settles as [p]. *)
Definition await {A} (sp : Suspension) (e : Event) (p : Settled A)
  : M World A :=
  emit e;; suspend sp;; settle p.

(** [abortHandle.isAborted()] on the handle stored at [h]. *)
Definition isAborted_at (h : nat) : M World bool := gets (aborted_at h).

(** [preCreatedAudioTrack?.stop()] *)
Definition stop_opt (t : option LocalTrack) : M World unit :=
  match t with
  | Some t => emit (Stop t)
  | None => mret tt
  end.

(** [e instanceof ConnectionError &&
     (e.status === 503 || e.status === 200 || e.status === 429)] *)
Definition isCapacityError (e : Thrown) : bool :=
  match e with
  | ThrownError (ConnectionError _ _ status) =>
      bool_decide (status = Some 503) || bool_decide (status = Some 200)
      || bool_decide (status = Some 429)
  | _ => false
  end.

(** The loop [for (const st of screenshareTracks)] of [connectAndPublish].
    The publications are not awaited: the loop starts them all, and the
    [.catch] handlers of those that fail log afterwards. *)
Definition publishScreenshareTracks (screenshareTracks : list MediaStreamTrack)
  : M World unit :=
  mapM (λ st, emit (PublishTrack (OfMediaStreamTrack st) ScreenShare))
    screenshareTracks;;
  mapM (λ st,
        match publishTrack env (OfMediaStreamTrack st) ScreenShare with
        | Rejects _ => log LogError "Failed to publish screenshare track"
        | Resolves _ => mret tt
        end)
    screenshareTracks;;
  mret tt.

(** [connectAndPublish].  The analytics calls (the connect-duration tracker
    and its [SignalConnected] listener) are left out. *)
Definition connectAndPublish (sfuConfig : SFUConfig)
    (micTrack : option LocalTrack) (screenshareTracks : list MediaStreamTrack)
  : M World unit :=
  function_ (
    try_catch
      (log LogInfo ("[Lifecycle] Connecting to livekit room "
                    +:+ default "undefined" (url sfuConfig) +:+ " ...");;
       await AwaitConnect
         (Connect (url sfuConfig) (jwt sfuConfig)
            (default 45000 (window_peerConnectionTimeout env))
            (default 45000 (window_websocketTimeout env)))
         (connect env (url sfuConfig) (jwt sfuConfig));;
       log LogInfo "[Lifecycle] ... connected to livekit room")
      (λ e,
       log LogError "[Lifecycle] Failed to connect";;
       if isCapacityError e then throw (ThrownError InsufficientCapacityError)
       else throw e);;
    match micTrack with
    | Some t =>
        log LogInfo "Publishing precreated mic track";;
        await AwaitPublishMic (PublishTrack (OfLocalTrack t) Microphone)
          (publishTrack env (OfLocalTrack t) Microphone)
    | None => mret tt
    end;;
    log LogInfo ("Publishing " +:+ pretty (length screenshareTracks)
                 +:+ " precreated screenshare tracks");;
    publishScreenshareTracks screenshareTracks).

Definition doConnect (sfuConfig : SFUConfig) (audioEnabled : bool)
    (initialDeviceId : option string) (abortHandle : nat) : M World unit :=
  function_ (
    (if hasMicrophonePublication env AtStart then
       log LogWarn "Pre-creating audio track but participant already appears to have an microphone track: this shouldn't happen!";;
       emit (SentryMessage "Pre-creating audio track but participant already appears to have an microphone track!");;
       return_
     else mret tt);;
    log LogInfo "Pre-creating microphone track";;
    preCreatedAudioTrack ←
      try_catch
        (audioTracks ← await AwaitCreateTracks (CreateTracks initialDeviceId)
                         (createTracks env initialDeviceId);
         preCreatedAudioTrack ←
           (if bool_decide (length audioTracks < 1)%nat then
              log LogInfo "Tried to pre-create local audio track but got no tracks";;
              mret None
            else mret (head audioTracks));
         aborted ← isAborted_at abortHandle;
         (if aborted : bool then
            log LogInfo "[Lifecycle] Signal Aborted: Pre-created audio track but connection aborted";;
            stop_opt preCreatedAudioTrack;;
            return_
          else mret tt);;
         log LogInfo "Pre-created microphone track";;
         mret preCreatedAudioTrack)
        (λ e,
         log LogError "Failed to pre-create microphone track";;
         mret None);
    (* [await preCreatedAudioTrack?.mute()]: a suspension point even without
       a track; the await stands outside every [try], so a rejection leaves
       [doConnect] here *)
    (if negb audioEnabled then
       match preCreatedAudioTrack with
       | Some t => await AwaitMute (Mute t) (mute env t)
       | None => suspend AwaitMute
       end;;
       aborted ← isAborted_at abortHandle;
       if aborted : bool then
         log LogInfo "[Lifecycle] Signal Aborted: Pre-created audio track but connection aborted";;
         stop_opt preCreatedAudioTrack;;
         return_
       else mret tt
     else mret tt);;
    (if hasMicrophonePublication env AfterPreCreate then
       log LogWarn "Pre-created audio track but participant already appears to have an microphone track: this shouldn't happen!";;
       stop_opt preCreatedAudioTrack;;
       return_
     else mret tt);;
    log LogInfo "[Lifecycle] Connecting & publishing";;
    try_catch
      (connectAndPublish sfuConfig preCreatedAudioTrack [];;
       aborted ← isAborted_at abortHandle;
       if aborted : bool then
         log LogInfo "[Lifecycle] Signal Aborted: Connected but operation was cancelled. Force disconnect";;
         emit Disconnect;;
         match disconnect env with
         | Rejects _ => log LogError "Failed to disconnect from SFU"
         | Resolves _ => mret tt
         end;;
         return_
       else mret tt)
      (λ e,
       stop_opt preCreatedAudioTrack;;
       log LogDebug "Stopped precreated audio tracks.";;
       throw e)).

(** [onConnStateChanged] *)
Definition onConnStateChanged (state : ECConnectionState) : M World unit :=
  (if bool_decide (state = Connected)
   then modify (set_isSwitchingFocus false) else mret tt);;
  modify (set_connState state).

(** The screen-share clones [doFocusSwitch] collects. *)
Definition collectScreenshareTracks (pubs : list TrackPublication)
  : list MediaStreamTrack :=
  omap (λ t,
        match track t with
        | Some tr =>
            if bool_decide (source t = ScreenShare)
            then Some (set_enabled true (clone tr))
            else None
        | None => None
        end) pubs.

Definition doFocusSwitch (sfuConfig : SFUConfig) : M World unit :=
  function_ (
    let screenshareTracks :=
      collectScreenshareTracks (videoTrackPublications env) in
    modify (set_isSwitchingFocus true);;
    await AwaitDisconnect Disconnect (disconnect env);;
    modify (set_isInDoConnect true);;
    try_finally
      (connectAndPublish sfuConfig None screenshareTracks)
      (modify (set_isInDoConnect false))).

(** [new AbortHandle()], allocated at a fresh reference. *)
Definition alloc_AbortHandle : M World nat :=
  λ w, let h := fresh (dom (handles w)) in
       (Normal h, set_handles (insert h new_AbortHandle) w).

(** The [.catch] callback on the [doConnect] promise. *)
Definition onDoConnectRejected (e : Thrown) : M World unit :=
  match e with
  | ThrownError e =>
      if isElementCallError e then modify (set_error (Some e))
      else modify (set_error (Some (UnknownCallError e)))
  | ThrownValue _ => log LogError "Failed to connect to SFU"
  end.

(** The effect that runs when [sfuConfig] (or another dependency) changed.
    The promises it starts are run to completion in place; the assignment
    to [currentSFUConfig.current] touches nothing they read. *)
Definition sfuConfigEffect (initialDeviceId : option string)
    (initialAudioEnabled : bool) (sfuConfig : option SFUConfig)
  : M World unit :=
  current ← gets currentSFUConfig;
  (if sfuConfigValid sfuConfig && sfuConfigValid (Some current)
      && negb (sfuConfigEquals (Some current) sfuConfig) then
     log LogInfo ("SFU config changed! URL was "
                  +:+ default "undefined" (url current) +:+ " now "
                  +:+ default "undefined" (sfuConfig ≫= url));;
     try_catch (doFocusSwitch (Object_assign sfuConfig))
       (λ e, log LogError "Failed to switch focus")
   else if negb (sfuConfigValid (Some current)) && sfuConfigValid sfuConfig then
     modify (set_isInDoConnect true);;
     abortHandle ← alloc_AbortHandle;
     modify (set_bag (λ bag, {[abortHandle]} ∪ bag));;
     try_finally
       (try_catch
          (doConnect (Object_assign sfuConfig) initialAudioEnabled
             initialDeviceId abortHandle)
          onDoConnectRejected)
       (modify (set_bag (λ bag, bag ∖ {[abortHandle]}));;
        modify (set_isInDoConnect false))
   else mret tt);;
  modify (set_currentSFUConfig (Object_assign sfuConfig)).

(** What the hook returns on a render ([Threw]: the stored error is
    rethrown to the error boundary). *)
Definition useECConnectionState_result (w : World)
  : Completion ECConnectionState :=
  match error w with
  | Some e => Threw (ThrownError e)
  | None =>
      Normal (if isSwitchingFocus w then ECSwitchingFocus
              else if isInDoConnect w then Connecting
              else connState w)
  end.

End WithEnv.

(** The hook's first render: [connState] starts from the room's state when
    both the config and the room are there, else from [ECWaiting]. *)
Definition initial_World (sfuConfig : option SFUConfig)
    (roomState : option ECConnectionState) : World :=
  {| handles := ∅; abortHandlesBag := ∅; trace := [];
     currentSFUConfig := Object_assign sfuConfig;
     connState := match sfuConfig, roomState with
                  | Some _, Some st => st
                  | _, _ => ECWaiting
                  end;
     isSwitchingFocus := false; isInDoConnect := false; error := None |}.

End ECConnectionState.

(** ** livekit/useLivekit.ts: the mute synchronisation *)

Module Livekit.

Inductive MuteDevice : Type := Microphone | Camera.

#[global] Instance MuteDevice_eq_dec : EqDecision MuteDevice.
Proof. solve_decision. Defined.

(** The calls made on the participant, the timers, the caller's
    [muteStates] and the logger, in order. *)
Inductive Event : Type :=
| SetMicrophoneEnabled (enabled : bool)
| SetCameraEnabled (enabled : bool)
| SetTimeout (ms : Z)
| MuteStates_setEnabled (type : MuteDevice) (enabled : bool)
| Log (l : LogLevel) (msg : string).

#[global] Instance Event_eq_dec : EqDecision Event.
Proof. solve_decision. Defined.

(** How [setMicrophoneEnabled] / [setCameraEnabled] settles: with a track
    publication, with undefined, or with a failure. *)
Inductive Reply : Type :=
| Publication
| NoPublication
| Failure (e : Thrown).

(** The device, and what happens while the loop is suspended on it.  The
    fields are indexed by the kind and by the [iterCount] of the call. *)
Record Env : Type := {
  (** the settlement of the call made with the requested state *)
  reply : MuteDevice → nat → bool → Reply;
  (** [participant.isMicrophoneEnabled] / [isCameraEnabled] once the call
      has settled (and the loop has slept) *)
  reportedAfter : MuteDevice → nat → bool → bool;
  (** a render that stored a new button state in [buttonEnabled.current]
      meanwhile, if any *)
  buttonAfter : MuteDevice → nat → option bool;
}.

Record World : Type := {
  isMicrophoneEnabled : bool;
  isCameraEnabled : bool;
  buttonEnabled_audio : bool;
  buttonEnabled_video : bool;
  audioMuteUpdating : bool;
  videoMuteUpdating : bool;
  trace : list Event;
}.

Definition devEnabled (type : MuteDevice) (w : World) : bool :=
  match type with
  | Microphone => isMicrophoneEnabled w
  | Camera => isCameraEnabled w
  end.

Definition btnEnabled (type : MuteDevice) (w : World) : bool :=
  match type with
  | Microphone => buttonEnabled_audio w
  | Camera => buttonEnabled_video w
  end.

Definition updating (type : MuteDevice) (w : World) : bool :=
  match type with
  | Microphone => audioMuteUpdating w
  | Camera => videoMuteUpdating w
  end.

Definition set_devEnabled (type : MuteDevice) (b : bool) (w : World) : World :=
  match type with
  | Microphone =>
      {| isMicrophoneEnabled := b; isCameraEnabled := isCameraEnabled w;
         buttonEnabled_audio := buttonEnabled_audio w;
         buttonEnabled_video := buttonEnabled_video w;
         audioMuteUpdating := audioMuteUpdating w;
         videoMuteUpdating := videoMuteUpdating w; trace := trace w |}
  | Camera =>
      {| isMicrophoneEnabled := isMicrophoneEnabled w; isCameraEnabled := b;
         buttonEnabled_audio := buttonEnabled_audio w;
         buttonEnabled_video := buttonEnabled_video w;
         audioMuteUpdating := audioMuteUpdating w;
         videoMuteUpdating := videoMuteUpdating w; trace := trace w |}
  end.

Definition set_btnEnabled (type : MuteDevice) (b : bool) (w : World) : World :=
  match type with
  | Microphone =>
      {| isMicrophoneEnabled := isMicrophoneEnabled w;
         isCameraEnabled := isCameraEnabled w;
         buttonEnabled_audio := b;
         buttonEnabled_video := buttonEnabled_video w;
         audioMuteUpdating := audioMuteUpdating w;
         videoMuteUpdating := videoMuteUpdating w; trace := trace w |}
  | Camera =>
      {| isMicrophoneEnabled := isMicrophoneEnabled w;
         isCameraEnabled := isCameraEnabled w;
         buttonEnabled_audio := buttonEnabled_audio w;
         buttonEnabled_video := b;
         audioMuteUpdating := audioMuteUpdating w;
         videoMuteUpdating := videoMuteUpdating w; trace := trace w |}
  end.

Definition set_updating (type : MuteDevice) (b : bool) (w : World) : World :=
  match type with
  | Microphone =>
      {| isMicrophoneEnabled := isMicrophoneEnabled w;
         isCameraEnabled := isCameraEnabled w;
         buttonEnabled_audio := buttonEnabled_audio w;
         buttonEnabled_video := buttonEnabled_video w;
         audioMuteUpdating := b;
         videoMuteUpdating := videoMuteUpdating w; trace := trace w |}
  | Camera =>
      {| isMicrophoneEnabled := isMicrophoneEnabled w;
         isCameraEnabled := isCameraEnabled w;
         buttonEnabled_audio := buttonEnabled_audio w;
         buttonEnabled_video := buttonEnabled_video w;
         audioMuteUpdating := audioMuteUpdating w;
         videoMuteUpdating := b; trace := trace w |}
  end.

Definition set_trace (f : list Event → list Event) (w : World) : World :=
  {| isMicrophoneEnabled := isMicrophoneEnabled w;
     isCameraEnabled := isCameraEnabled w;
     buttonEnabled_audio := buttonEnabled_audio w;
     buttonEnabled_video := buttonEnabled_video w;
     audioMuteUpdating := audioMuteUpdating w;
     videoMuteUpdating := videoMuteUpdating w; trace := f (trace w) |}.

Definition emit (e : Event) : M World unit :=
  modify (set_trace (λ t, (t ++ [e])%list)).

Definition log (l : LogLevel) (msg : string) : M World unit := emit (Log l msg).

(** [(e as DOMException).name] *)
Definition name_of (e : Thrown) : option string :=
  match e with
  | ThrownError e => Some (error_name e)
  | ThrownValue _ => None
  end.

Section WithEnv.
Variable env : Env.

(** [await participant.setMicrophoneEnabled(requested, ..)], or the camera's:
    the call is made, the environment acts while the loop is suspended, and
    the promise settles. *)
Definition setEnabled (type : MuteDevice) (iterCount : nat) : M World bool :=
  requested ← gets (btnEnabled type);
  emit (match type with
        | Microphone => SetMicrophoneEnabled requested
        | Camera => SetCameraEnabled requested
        end);;
  modify (set_devEnabled type (reportedAfter env type iterCount requested));;
  match buttonAfter env type iterCount with
  | Some b => modify (set_btnEnabled type b)
  | None => mret tt
  end;;
  match reply env type iterCount requested with
  | Publication => mret true
  | NoPublication => mret false
  | Failure e => throw e
  end.

Equations? syncMuteState (iterCount : nat) (type : MuteDevice) : M World unit
  by wf (11 - iterCount)%nat lt :=
syncMuteState iterCount type with decide (10 < iterCount)%nat => {
  | left _ :=
      function_ (
        log LogError "Stop trying to sync the input device with current mute state after 10 failed tries";;
        return_);
  | right Hle :=
      function_ (
        devEnabled ← gets (devEnabled type);
        btnEnabled ← gets (btnEnabled type);
        updating ← gets (updating type);
        if negb (bool_decide (devEnabled = btnEnabled)) && negb updating then
          try_catch
            (modify (set_updating type true);;
             trackPublication ← setEnabled type iterCount;
             modify (set_updating type false);;
             if trackPublication : bool then
               emit (SetTimeout 100);;
               syncMuteState (iterCount + 1) type
             else
               throw (ThrownError
                 (Error_ "track with new mute state could not be published")))
            (λ e,
             if bool_decide (name_of e = Some "NotAllowedError") then
               log LogError "Fatal error while syncing mute state: resetting";;
               modify (set_updating type false);;
               emit (MuteStates_setEnabled type false)
             else
               log LogError "Failed to sync audio mute state with LiveKit (will retry to sync in 1s):";;
               emit (SetTimeout 1000);;
               syncMuteState (iterCount + 1) type)
        else mret tt) }.
Proof. all: lia. Qed.

(** The effect body once connected: both kinds are synchronised from
    [iterCount] 0; the two loops touch disjoint state. *)
Definition syncMuteStates : M World unit :=
  syncMuteState 0 Microphone;;
  syncMuteState 0 Camera.

End WithEnv.

End Livekit.

(** ** rtcSessionHelpers.ts: entering and leaving the session *)

Module RtcSessionLifecycle.
Import RtcSessionHelpers.

(** The [ElementWidgetActions] these functions send. *)
Inductive ElementWidgetActions : Type := JoinCall | HangupCall | Close.

(** ["user" | "error"] *)
Inductive HangupCause : Type := user | error.

#[global] Instance HangupCause_eq_dec : EqDecision HangupCause.
Proof. solve_decision. Defined.

(** The third argument of [joinRoomSession]; [useLegacyMemberEvents] is
    absent when the spread adds nothing. *)
Record JoinConfig : Type := {
  useNewMembershipManager : bool;
  manageMediaKeys : bool;
  useLegacyMemberEvents : option bool;
  delayedLeaveEventDelayMs : option Z;
  networkErrorRetryMs : option Z;
  makeKeyDelay : option Z;
  useExperimentalToDeviceTransport : bool;
}.

(** [Config.get().matrix_rtc_session] *)
Record MatrixRtcSessionConfig : Type := {
  membership_server_side_expiry_timeout : option Z;
  membership_keep_alive_period : option Z;
  key_rotation_on_leave_delay : option Z;
}.

(** The calls made on the analytics, the session, the widget API and the
    logger, and the error handed to [setExternalError], in order. *)
Inductive Event : Type :=
| CacheStartCall
| TrackCallStarted (roomId : string)
| JoinRoomSession (fociPreferred : list JsObject) (fociActive : JsObject)
    (joinConfig : JoinConfig)
| LeaveRoomSession
| SetAlwaysOnScreen (value : bool)
| Send (action : ElementWidgetActions)
| TransportStop
| SetExternalError (e : JsError)
| Log (l : LogLevel) (msg : string).

Record Env : Type := {
  (** the module-level [widget] is not null *)
  widget : bool;
  (** [Config.get().features?.feature_use_device_session_member_events] *)
  feature_use_device_session_member_events : option bool;
  matrix_rtc_session : option MatrixRtcSessionConfig;
  (** how [widget.api.setAlwaysOnScreen(value)] settles *)
  setAlwaysOnScreen : bool → Settled bool;
  (** how [widget.api.transport.send(action, {})] settles *)
  send : ElementWidgetActions → Settled unit;
  (** how [rtcSession.leaveRoomSession()] settles *)
  leaveRoomSession : Settled bool;
  (** [getUrlParams().returnToLobby] *)
  returnToLobby : bool;
  (** what [makePreferredLivekitFoci] reads *)
  discovery : RtcSessionHelpers.Env;
}.

(** [makeActiveFocus] *)
Definition makeActiveFocus : JsObject :=
  {[ "type" := "livekit"; "focus_selection" := "oldest_membership" ]}.

Section WithSdk.
Variable isLivekitFocus : JsObject → bool.
Variable isLivekitFocusConfig : JsObject → bool.
Variable env : Env.

Definition emit (e : Event) : M (list Event) unit :=
  modify (λ t, (t ++ [e])%list).

Definition log (l : LogLevel) (msg : string) : M (list Event) unit :=
  emit (Log l msg).

(** A call of a function that keeps its own log: its entries join the
    trace. *)
Definition call {A} (m : M (list LogEntry) A) : M (list Event) A :=
  λ t, let (r, logs) := m [] in
       (r, (t ++ map (λ entry, Log (fst entry) (snd entry)) logs)%list).

(** [await promise] for a promise that may be undefined. *)
Definition await_opt {A} (p : option (Settled A)) : M (list Event) unit :=
  match p with
  | Some p => settle p;; mret tt
  | None => mret tt
  end.

Definition enterRTCSession (rtcSession : MatrixRTCSession)
    (encryptMedia useNewMembershipManager useExperimentalToDeviceTransport : bool)
  : M (list Event) unit :=
  function_ (
    emit CacheStartCall;;
    emit (TrackCallStarted (roomId rtcSession));;
    let livekitAlias := roomId rtcSession in
    let matrixRtcSessionConfig := matrix_rtc_session env in
    let useDeviceSessionMemberEvents :=
      feature_use_device_session_member_events env in
    fociPreferred ←
      call (makePreferredLivekitFoci isLivekitFocus isLivekitFocusConfig
              (discovery env) rtcSession livekitAlias);
    emit (JoinRoomSession fociPreferred makeActiveFocus
            {| useNewMembershipManager := useNewMembershipManager;
               manageMediaKeys := encryptMedia;
               useLegacyMemberEvents := negb <$> useDeviceSessionMemberEvents;
               delayedLeaveEventDelayMs :=
                 matrixRtcSessionConfig
                   ≫= membership_server_side_expiry_timeout;
               networkErrorRetryMs :=
                 matrixRtcSessionConfig ≫= membership_keep_alive_period;
               makeKeyDelay :=
                 matrixRtcSessionConfig ≫= key_rotation_on_leave_delay;
               useExperimentalToDeviceTransport :=
                 useExperimentalToDeviceTransport |});;
    if widget env then
      try_catch
        (emit (Send JoinCall);; settle (send env JoinCall))
        (λ e, log LogError "Failed to send join action")
    else mret tt).

Definition widgetPostHangupProcedure (cause : HangupCause)
    (promiseBeforeHangup : option (Settled unit)) : M (list Event) unit :=
  function_ (
    try_catch
      (emit (SetAlwaysOnScreen false);;
       settle (setAlwaysOnScreen env false);;
       mret tt)
      (λ e, log LogError "Failed to set call widget `alwaysOnScreen` to false");;
    await_opt promiseBeforeHangup;;
    try_catch
      (emit (Send HangupCall);; settle (send env HangupCall))
      (λ e, log LogError "Failed to send hangup action");;
    if bool_decide (cause = user) && negb (returnToLobby env) then
      try_catch
        (emit (Send Close);; settle (send env Close))
        (λ e, log LogError "Failed to send close action");;
      emit TransportStop
    else mret tt).

Definition leaveRTCSession (cause : HangupCause)
    (promiseBeforeHangup : option (Settled unit)) : M (list Event) unit :=
  function_ (
    emit LeaveRoomSession;;
    settle (leaveRoomSession env);;
    if widget env then widgetPostHangupProcedure cause promiseBeforeHangup
    else await_opt promiseBeforeHangup).

(** [enterRTCSessionOrError] of room/GroupCallView.tsx *)
Definition enterRTCSessionOrError (rtcSession : MatrixRTCSession)
    (perParticipantE2EE useNewMembershipManager
     useExperimentalToDeviceTransport : bool) : M (list Event) unit :=
  function_ (
    try_catch
      (enterRTCSession rtcSession perParticipantE2EE useNewMembershipManager
         useExperimentalToDeviceTransport)
      (λ e,
       match e with
       | ThrownError err =>
           if isElementCallError err then emit (SetExternalError err)
           else
             log LogError "Unknown Error while entering RTC session";;
             emit (SetExternalError (UnknownCallError err))
       | ThrownValue _ =>
           log LogError "Unknown Error while entering RTC session";;
           emit (SetExternalError (UnknownCallError (Error_ "Unknown error")))
       end)).

End WithSdk.

End RtcSessionLifecycle.

(** ** livekit/openIDSFU.ts: the hook *)

Module UseOpenIDSFU.
Import OpenIDSFU.

(** The hook's [sfuConfig] state, the error held by [useErrorBoundary], and
    the log. *)
Record World : Type := {
  sfuConfig : option SFUConfig;
  boundaryError : option JsError;
  logs : list LogEntry;
}.

(** [new FailToGetOpenIdToken(e)] for the reason [e] of a rejection.  A
    reason that is no [Error] is kept as an anonymous error carrying it. *)
Definition wrapped (e : Thrown) : JsError :=
  FailToGetOpenIdToken
    match e with
    | ThrownError err => err
    | ThrownValue v => PlainError "" v
    end.

Section WithFetch.
Variable fetch : Request → Settled Response.

(** The effect on [client] and [activeFocus], with the promise it starts
    run to completion. *)
Definition useOpenIDSFU_effect (client : OpenIDClientParts)
    (activeFocus : option LivekitFocus) (w : World) : World :=
  match activeFocus with
  | Some focus =>
      match getSFUConfigWithOpenID fetch client focus (logs w) with
      | (Normal cfg, logs') =>
          {| sfuConfig := cfg; boundaryError := boundaryError w;
             logs := logs' |}
      | (Returned, logs') =>
          {| sfuConfig := None; boundaryError := boundaryError w;
             logs := logs' |}
      | (Threw e, logs') =>
          {| sfuConfig := sfuConfig w; boundaryError := Some (wrapped e);
             logs := (logs' ++ [(LogError, "Failed to get SFU config")])%list |}
      end
  | None =>
      {| sfuConfig := None; boundaryError := boundaryError w; logs := logs w |}
  end.

End WithFetch.

(** What the hook returns on a render; [useErrorBoundary] rethrows the
    error it holds. *)
Definition useOpenIDSFU_result (w : World) : Completion (option SFUConfig) :=
  match boundaryError w with
  | Some e => Threw (ThrownError e)
  | None => Normal (sfuConfig w)
  end.

End UseOpenIDSFU.

(** ** room/useActiveFocus.ts *)

Module ActiveFocus.
Import RtcSessionHelpers.

(** The [activeFocus] state; the [activeFocus] that the subscribed callback
    closed over, at the render that created it; and the log. *)
Record World : Type := {
  activeFocus : option JsObject;
  subscribed : option JsObject;
  logs : list LogEntry;
}.

(** matrix-js-sdk's [deepCompare], on foci that may be undefined. *)
Definition deepCompare (a b : option JsObject) : bool := bool_decide (a = b).

Section WithSdk.
Variable isLivekitFocus : JsObject → bool.

(** The initial state, from [rtcSession.getActiveFocus()]. *)
Definition initialFocus (f : option JsObject) : option JsObject :=
  match f with
  | Some f => if isLivekitFocus f then Some f else None
  | None => None
  end.

(** The first render and its effect: the callback subscribed closes over
    the initial state. *)
Definition initial_World (f : option JsObject) : World :=
  {| activeFocus := initialFocus f; subscribed := initialFocus f;
     logs := [] |}.

(** [onMembershipsChanged], for what [rtcSession.getActiveFocus()] returns
    at the event.  Its [activeFocus] is the one of the render that created
    the callback, not the current state. *)
Definition onMembershipsChanged (newActiveFocus : option JsObject)
  : M World unit :=
  function_ (
    match newActiveFocus with
    | Some f => if negb (isLivekitFocus f) then return_ else mret tt
    | None => mret tt
    end;;
    activeFocus ← gets subscribed;
    if negb (deepCompare activeFocus newActiveFocus) then
      modify (λ w, {| activeFocus := ActiveFocus.activeFocus w;
                      subscribed := subscribed w;
                      logs := (logs w ++ [(LogWarn, "Got new active focus from membership")])%list |});;
      modify (λ w, {| activeFocus := newActiveFocus;
                      subscribed := subscribed w; logs := logs w |})
    else mret tt).

(** A render and its passive effect, which has no dependency list: the
    callback of the previous render is unsubscribed and the one of this
    render, closing over the current state, is subscribed. *)
Definition render : M World unit :=
  modify (λ w, {| activeFocus := activeFocus w; subscribed := activeFocus w;
                  logs := logs w |}).

(** What happens to the hook: the session reports a membership change, or
    React renders the component. *)
Inductive Step : Type :=
| MembershipsChanged (getActiveFocus : option JsObject)
| Render.

Definition step (s : Step) : M World unit :=
  match s with
  | MembershipsChanged f => onMembershipsChanged f
  | Render => render
  end.

End WithSdk.

End ActiveFocus.

(** ** livekit/useLivekit.ts: the device synchronisation *)

Module DeviceSync.
Import OpenIDSFU.

Inductive MediaDeviceKind : Type := audioinput | audiooutput | videoinput.

#[global] Instance MediaDeviceKind_eq_dec : EqDecision MediaDeviceKind.
Proof. solve_decision. Defined.

(** The kind as a string, for the log. *)
Definition kind_name (kind : MediaDeviceKind) : string :=
  match kind with
  | audioinput => "audioinput"
  | audiooutput => "audiooutput"
  | videoinput => "videoinput"
  end.

(** What [syncDevice] reads of a [MediaDeviceHandle]. *)
Record MediaDeviceHandle : Type := {
  selectedId : option string;
  selectedGroupId : option string;
}.

(** [devices.audioInput], [devices.audioOutput], [devices.videoInput] *)
Record MediaDevices : Type := {
  audioInput : MediaDeviceHandle;
  audioOutput : MediaDeviceHandle;
  videoInput : MediaDeviceHandle;
}.

(** The active microphone track: [mediaStreamTrack.readyState] and
    [mediaStreamTrack.getSettings().groupId]. *)
Record MicTrack : Type := {
  readyState : string;
  groupId : option string;
}.

Inductive Event : Type :=
| RestartTrack
| SwitchActiveDevice (kind : MediaDeviceKind) (id : string)
| Log (l : LogLevel) (msg : string).

Record Env : Type := {
  (** [room.options.audioCaptureDefaults?.deviceId] *)
  audioCaptureDefaults_deviceId : option string;
  (** [Array.from(audioTrackPublications.values())
        .find((d) => d.source === Track.Source.Microphone)?.track] *)
  activeMicTrack : option MicTrack;
  (** how [getTrackPublication(Track.Source.Microphone)?.audioTrack
        ?.restartTrack()] settles; [None] when the chain stops short *)
  restartTrack : option (Settled unit);
  getActiveDevice : MediaDeviceKind → option string;
  switchActiveDevice : MediaDeviceKind → string → Settled bool;
}.

Section WithEnv.
Variable env : Env.

Definition emit (e : Event) : M (list Event) unit :=
  modify (λ t, (t ++ [e])%list).

Definition log (l : LogLevel) (msg : string) : M (list Event) unit :=
  emit (Log l msg).

(** [syncDevice]; the [.catch] handlers of the calls it starts log in
    place. *)
Definition syncDevice (kind : MediaDeviceKind) (device : MediaDeviceHandle)
  : M (list Event) unit :=
  let id := selectedId device in
  if bool_decide (id = Some "default") && bool_decide (kind = audioinput)
     && bool_decide (audioCaptureDefaults_deviceId env = Some "default") then
    match activeMicTrack env with
    | Some activeMicTrack =>
        if negb (bool_decide (readyState activeMicTrack = "ended"))
           && negb (strict_eq (selectedGroupId device) (groupId activeMicTrack))
        then
          match restartTrack env with
          | Some p =>
              emit RestartTrack;;
              match p with
              | Rejects _ => log LogError "Failed to restart audio device track"
              | Resolves _ => mret tt
              end
          | None => mret tt
          end
        else mret tt
    | None => mret tt
    end
  else
    match id with
    | Some id =>
        if negb (bool_decide (getActiveDevice env kind = Some id)) then
          emit (SwitchActiveDevice kind id);;
          match switchActiveDevice env kind id with
          | Rejects _ =>
              log LogError ("Failed to sync " +:+ kind_name kind
                            +:+ " device with LiveKit")
          | Resolves _ => mret tt
          end
        else mret tt
    | None => mret tt
    end.

(** The effect on [room], [devices], [connectionState] and
    [controlledAudioDevices]; [connected] stands for
    [room !== undefined && connectionState === ConnectionState.Connected]. *)
Definition syncDevices (connected controlledAudioDevices : bool)
    (devices : MediaDevices) : M (list Event) unit :=
  if connected && negb controlledAudioDevices then
    syncDevice audioinput (audioInput devices);;
    syncDevice audiooutput (audioOutput devices);;
    syncDevice videoinput (videoInput devices)
  else mret tt.

End WithEnv.

End DeviceSync.

(** ** room/MuteStates.ts: the widget's mute requests *)

Module MuteStates.



(** A field of [ev.detail.data]. *)
Inductive Json : Type :=
| JsonAbsent
| JsonNull
| JsonBoolean (b : bool)
| JsonOther (v : string).

(** The data of a [DeviceMute] reply. *)
Record DeviceMuteData : Type := {
  audio_enabled : bool;
  video_enabled : bool;
}.

Record Env : Type := {
  (** [devices.audioInput.available.size > 0] and the video input's *)
  audio_available : bool;
  video_available : bool;
}.

(** The two [enabled] states of [useMuteState] and the replies sent to the
    widget's host. *)
Record World : Type := {
  audio_state : option bool;
  video_state : option bool;
  replies : list DeviceMuteData;
}.


Section WithEnv.
Variable env : Env.



(** [x != null && typeof x === "boolean"] *)
Definition requested (x : Json) : option bool :=
  match x with
  | JsonBoolean b => Some b
  | _ => None
  end.


End WithEnv.

End MuteStates.

(** ** livekit/MatrixAudioRenderer.tsx: the tracks that are rendered *)

Module MatrixAudioRenderer.


(** [Track.Kind] *)
Inductive TrackKind : Type := Audio | Video | UnknownKind.

#[global] Instance TrackKind_eq_dec : EqDecision TrackKind.
Proof. solve_decision. Defined.


(** The ref [loggedInvalidIdentities] and the identities warned about, in
    order. *)
Record World : Type := {
  loggedInvalidIdentities : gset string;
  warned : list string;
}.






Definition initial_World : World :=
  {| loggedInvalidIdentities := ∅; warned := [] |}.

End MatrixAudioRenderer.

(** * Properties *)

(** Unfolds the monad's operations so that a run can be computed. *)
Ltac unfold_monad :=
  unfold mbind, mret, M_bind, M_ret, gets, modify, return_, throw, settle,
    try_catch, try_finally, function_ in *.

(** ** livekit/openIDSFU.ts *)

Module OpenIDSFU_Facts.
Import OpenIDSFU.

Lemma strict_eq_true a b : strict_eq a b = true ↔ a = b.
Proof. unfold strict_eq. by rewrite bool_decide_eq_true. Qed.

Lemma sfuConfigEquals_Some a b :
  sfuConfigEquals (Some a) (Some b) = true ↔ url a = url b ∧ jwt a = jwt b.
Proof.
  unfold sfuConfigEquals; simpl.
  rewrite andb_true_iff, !strict_eq_true. tauto.
Qed.

Lemma sfuConfigEquals_refl a : sfuConfigEquals a a = true.
Proof. destruct a as [a|]; [by apply sfuConfigEquals_Some | done]. Qed.

(** The request [getLiveKitJWT] sends. *)
Definition request_of (client : OpenIDClientParts) (focus : LivekitFocus)
    (token : IOpenIDToken) : Request :=
  {| req_url := livekit_service_url focus +:+ "/sfu/get";
     req_method := "POST";
     req_content_type := "application/json";
     req_room := livekit_alias focus;
     req_openid_token := token;
     req_device_id := getDeviceId client |}.

(** The exchange did not yield credentials: [fetch] threw, the response was
    not a success, or its body could not be read. *)
Definition exchange_failed (r : Settled Response) : Prop :=
  match r with
  | Rejects _ => True
  | Resolves res => ok res = false ∨ ∃ t, json res = Rejects t
  end.

Lemma getLiveKitJWT_failed fetch client focus token logs :
  exchange_failed (fetch (request_of client focus token)) →
  ∃ msg,
    getLiveKitJWT fetch client (livekit_service_url focus)
      (livekit_alias focus) token logs
    = (Threw (ThrownError
         (Error_ ("SFU Config fetch failed with exception " +:+ msg))), logs).
Proof.
  unfold getLiveKitJWT, exchange_failed. fold (request_of client focus token).
  unfold_monad.
  destruct (fetch _) as [res|t]; simpl.
  - intros [Hok | [t Ht]].
    + rewrite Hok; simpl. eauto.
    + destruct (ok res); simpl; [rewrite Ht; simpl|]; eauto.
  - eauto.
Qed.

Lemma getLiveKitJWT_ok fetch client focus token logs res cfg :
  fetch (request_of client focus token) = Resolves res →
  ok res = true → json res = Resolves cfg →
  getLiveKitJWT fetch client (livekit_service_url focus)
    (livekit_alias focus) token logs = (Normal cfg, logs).
Proof.
  intros Hf Hok Hj.
  unfold getLiveKitJWT. fold (request_of client focus token).
  unfold_monad. by rewrite Hf; simpl; rewrite Hok; simpl; rewrite Hj.
Qed.

(** The log of an exchange that failed after the token was obtained. *)
Definition failed_exchange_log (focus : LivekitFocus) : list LogEntry :=
  [ (LogDebug, "Got openID token");
    (LogInfo, "Trying to get JWT from call's active focus URL of "
              +:+ livekit_service_url focus +:+ "...");
    (LogWarn, "Failed to get JWT from RTC session's active focus URL of "
              +:+ livekit_service_url focus +:+ ".") ].

(** C5, as the code has it: when the POST to the focus's service URL throws
    or answers with a non-success status, [getLiveKitJWT] rejects with an
    [Error] "SFU Config fetch failed with exception ..."; but
    [getSFUConfigWithOpenID] catches that rejection, logs a warning naming
    the focus URL and resolves with undefined.  The promise is not
    rejected. *)
Theorem getSFUConfigWithOpenID_swallows_exchange_failure
    fetch client focus token :
  getOpenIdToken_withRetry client = Resolves token →
  exchange_failed (fetch (request_of client focus token)) →
  (∃ msg,
     getLiveKitJWT fetch client (livekit_service_url focus)
       (livekit_alias focus) token []
     = (Threw (ThrownError
          (Error_ ("SFU Config fetch failed with exception " +:+ msg))), []))
  ∧ getSFUConfigWithOpenID fetch client focus []
    = (Normal None, failed_exchange_log focus)
  ∧ getSFUConfigWithOpenID_promise fetch client focus = Resolves None.
Proof.
  intros Htok Hfail.
  split; [by apply getLiveKitJWT_failed|].
  assert (getSFUConfigWithOpenID fetch client focus []
          = (Normal None, failed_exchange_log focus)) as Hrun.
  { unfold getSFUConfigWithOpenID. rewrite Htok.
    unfold_monad; simpl. unfold log. unfold_monad; simpl.
    destruct (getLiveKitJWT_failed fetch client focus token
                [(LogDebug, "Got openID token");
                 (LogInfo, "Trying to get JWT from call's active focus URL of "
                    +:+ livekit_service_url focus +:+ "...")] Hfail)
      as [msg Hjwt].
    by rewrite Hjwt. }
  split; [done|].
  unfold getSFUConfigWithOpenID_promise. by rewrite Hrun.
Qed.

(** A focus whose service answers every request with status 500. *)
Definition focus_example : LivekitFocus :=
  {| livekit_service_url := "https://sfu.example.org";
     livekit_alias := "!room:example.org" |}.

Definition token_example : IOpenIDToken :=
  {| access_token := "secret"; token_type := "Bearer";
     matrix_server_name := "example.org"; expires_in := 3600 |}.

Definition client_example : OpenIDClientParts :=
  {| getOpenIdToken_withRetry := Resolves token_example;
     getDeviceId := Some "DEVICE" |}.

Definition fetch_500 (_ : Request) : Settled Response :=
  Resolves
    {| ok := false; status := 500;
       json := Rejects (ThrownError
                 (PlainError "SyntaxError" "Unexpected end of JSON input")) |}.

Definition fetch_unreachable (_ : Request) : Settled Response :=
  Rejects (ThrownError (PlainError "TypeError" "Failed to fetch")).

Lemma getSFUConfigWithOpenID_swallows_witness :
  getSFUConfigWithOpenID_promise fetch_500 client_example focus_example
  = Resolves None.
Proof.
  apply (getSFUConfigWithOpenID_swallows_exchange_failure
           fetch_500 client_example focus_example token_example).
  - reflexivity.
  - simpl. left. reflexivity.
Defined.

(** C5 as stated fails: with a 500 response, and with [fetch] throwing, the
    promise of [getSFUConfigWithOpenID] resolves (with undefined) instead of
    rejecting, and the error [getLiveKitJWT] threw stays inside. *)
Lemma getSFUConfigWithOpenID_resolves_on_failure :
  getSFUConfigWithOpenID_promise fetch_500 client_example focus_example
  = Resolves None
  ∧ getSFUConfigWithOpenID_promise fetch_unreachable client_example
      focus_example = Resolves None
  ∧ fst (getLiveKitJWT fetch_500 client_example "https://sfu.example.org"
           "!room:example.org" token_example [])
    = Threw (ThrownError (Error_
        "SFU Config fetch failed with exception Error: SFU Config fetch failed with status code 500")).
Proof. vm_compute. done. Qed.

(** Only the identity token is fatal: its failure rejects the promise with
    [FailToGetOpenIdToken], whatever [fetch] would do. *)
Lemma getSFUConfigWithOpenID_token_failure fetch client focus t :
  getOpenIdToken_withRetry client = Rejects t →
  ∃ e, getSFUConfigWithOpenID_promise fetch client focus
       = Rejects (ThrownError (FailToGetOpenIdToken e)).
Proof.
  intros Ht. unfold getSFUConfigWithOpenID_promise, getSFUConfigWithOpenID.
  rewrite Ht. unfold_monad; simpl. eauto.
Qed.

End OpenIDSFU_Facts.

(** ** rtcSessionHelpers.ts *)

Module RtcSessionHelpers_Facts.
Import RtcSessionHelpers.

Section Resolution.
Variable isLivekitFocus : JsObject → bool.
Variable isLivekitFocusConfig : JsObject → bool.
Variable env : Env.

(** The three sources, as lists. *)
Definition inUseFoci (s : MatrixRTCSession) : list JsObject :=
  match getFocusInUse s with
  | Some f => if isLivekitFocus f then [f] else []
  | None => []
  end.

Definition publishedFoci (s : MatrixRTCSession) (alias : string)
  : list JsObject :=
  if truthy (getDomain s) then
    match getRawClientConfig env (default "" (getDomain s))
          ≫= (λ config, config !! FOCI_WK_KEY) with
    | Some (WkArray foci) =>
        map (withAlias alias) (livekitConfigs isLivekitFocusConfig foci)
    | _ => []
    end
  else [].

Definition fallbackFoci (alias : string) : list JsObject :=
  if truthy (livekit_service_url_fromConf env)
  then [focusFromConf (default "" (livekit_service_url_fromConf env)) alias]
  else [].

Lemma mapM_withAlias alias (l : list JsObject) logs :
  ∃ logs',
    mapM (λ wellKnownFocus,
            log LogLog "Adding livekit focus from well known: ";;
            mret (withAlias alias wellKnownFocus)) l logs
    = (Normal (map (withAlias alias) l), logs').
Proof.
  revert logs. induction l as [|f l IH]; intros logs; simpl.
  - by eexists.
  - unfold log. unfold_monad. simpl.
    edestruct IH as [logs' ->]. by eexists.
Qed.

(** The run of [makePreferredLivekitFoci], source by source. *)
Lemma makePreferredLivekitFoci_run s alias logs :
  fst (makePreferredLivekitFoci isLivekitFocus isLivekitFocusConfig env
         s alias logs)
  = let foci :=
      (inUseFoci s ++ publishedFoci s alias ++ fallbackFoci alias)%list in
    if bool_decide (length foci = 0%nat)
    then Threw (ThrownError
                  (MatrixRTCFocusMissingError (default "" (getDomain s))))
    else Normal foci.
Proof.
  unfold makePreferredLivekitFoci, publishedFoci, inUseFoci, fallbackFoci.
  unfold log. unfold_monad. simpl.
  destruct (getFocusInUse s) as [f|]; [destruct (isLivekitFocus f)|]; simpl;
    destruct (truthy (getDomain s)); simpl;
    try (destruct (getRawClientConfig env _) as [config|]; simpl;
         [destruct (config !! FOCI_WK_KEY) as [[|foci]|]; simpl|]);
    try (edestruct (mapM_withAlias alias) as [logs' Hm];
         unfold log in Hm; unfold_monad; rewrite Hm; clear Hm; simpl);
    destruct (truthy (livekit_service_url_fromConf env)); simpl;
    rewrite ?app_nil_r; try done;
    repeat case_bool_decide; simpl; try done;
    rewrite <- ?app_assoc; try done.
Qed.

Lemma makePreferredLivekitFoci_promise_run s alias :
  makePreferredLivekitFoci_promise isLivekitFocus isLivekitFocusConfig env
    s alias
  = let foci :=
      (inUseFoci s ++ publishedFoci s alias ++ fallbackFoci alias)%list in
    if bool_decide (length foci = 0%nat)
    then Rejects (ThrownError
                    (MatrixRTCFocusMissingError (default "" (getDomain s))))
    else Resolves foci.
Proof.
  unfold makePreferredLivekitFoci_promise.
  rewrite makePreferredLivekitFoci_run. simpl.
  by case_bool_decide.
Qed.

(** The same session, reporting no focus in use. *)
Definition without_focusInUse (s : MatrixRTCSession) : MatrixRTCSession :=
  {| roomId := roomId s; getDomain := getDomain s; getFocusInUse := None |}.

(** A published focus paired with the alias: the object as published, with
    its [livekit_alias] set to the alias. *)
Definition paired (alias : string) (published : JsObject) : JsObject :=
  <["livekit_alias" := alias]> published.

(** The fallback focus: a LiveKit focus at the configured URL, with the
    alias. *)
Definition fallback (url alias : string) : JsObject :=
  {[ "type" := "livekit";
     "livekit_service_url" := url;
     "livekit_alias" := alias ]}.

(** C3: with in-use focus [A], a discovery document publishing [[B, C]] and
    the configured fallback URL [D], resolution yields exactly four foci in
    this order: [A] as reported; [B] and [C] as published, each with the
    alias as its [livekit_alias]; and the LiveKit focus at [D] with the
    alias.  Had the session reported no focus in use, the list would start
    with [B]. *)
Theorem makePreferredLivekitFoci_order s alias A B C D domain config :
  getFocusInUse s = Some A → isLivekitFocus A = true →
  getDomain s = Some domain → domain ≠ "" →
  getRawClientConfig env domain = Some config →
  config !! FOCI_WK_KEY = Some (WkArray [Some B; Some C]) →
  isLivekitFocusConfig B = true → isLivekitFocusConfig C = true →
  livekit_service_url_fromConf env = Some D → D ≠ "" →
  (makePreferredLivekitFoci_promise isLivekitFocus isLivekitFocusConfig env
     s alias
   = Resolves [A; paired alias B; paired alias C; fallback D alias]
   ∧ makePreferredLivekitFoci_promise isLivekitFocus isLivekitFocusConfig env
       (without_focusInUse s) alias
     = Resolves [paired alias B; paired alias C; fallback D alias])
  ∧ (∀ published,
       paired alias published !! "livekit_alias" = Some alias
       ∧ ∀ field, field ≠ "livekit_alias" →
                  paired alias published !! field = published !! field)
  ∧ (∀ field,
       fallback D alias !! field
       = if bool_decide (field = "type") then Some "livekit"
         else if bool_decide (field = "livekit_service_url") then Some D
         else if bool_decide (field = "livekit_alias") then Some alias
         else None).
Proof.
  intros HA HlA Hdom Hne Hraw Hcfg HB HC HD HneD.
  rewrite !makePreferredLivekitFoci_promise_run.
  unfold publishedFoci, inUseFoci, fallbackFoci, livekitConfigs; simpl.
  rewrite HA, HlA, Hdom, HD; simpl.
  rewrite !bool_decide_eq_false_2 by done; simpl.
  rewrite Hraw; simpl. rewrite Hcfg; simpl. rewrite HB, HC; simpl.
  split; [done|]. split.
  - intros published. unfold paired. split; [apply lookup_insert_eq|].
    intros field Hfield. by apply lookup_insert_ne.
  - intros field. unfold fallback.
    case_bool_decide as Ht; [subst; apply lookup_insert_eq|].
    rewrite lookup_insert_ne by done.
    case_bool_decide as Hu; [subst; apply lookup_insert_eq|].
    rewrite lookup_insert_ne by done.
    case_bool_decide as Ha; [subst; apply lookup_singleton_eq|].
    by apply lookup_singleton_ne.
Qed.

(** C4: without a usable focus in use, without published candidates and
    without a configured fallback, resolution is rejected with
    [MatrixRTCFocusMissingError]; and whatever the sources are, the promise
    never resolves with an empty list. *)
Theorem makePreferredLivekitFoci_never_empty s alias :
  match makePreferredLivekitFoci_promise isLivekitFocus isLivekitFocusConfig
          env s alias with
  | Resolves foci => foci ≠ []
  | Rejects _ => True
  end
  ∧ ((∀ f, getFocusInUse s = Some f → isLivekitFocus f = false) →
     (truthy (getDomain s) = false
      ∨ ∀ foci,
          getRawClientConfig env (default "" (getDomain s))
            ≫= (λ config, config !! FOCI_WK_KEY) = Some (WkArray foci) →
          livekitConfigs isLivekitFocusConfig foci = []) →
     truthy (livekit_service_url_fromConf env) = false →
     makePreferredLivekitFoci_promise isLivekitFocus isLivekitFocusConfig env
       s alias
     = Rejects (ThrownError
                  (MatrixRTCFocusMissingError (default "" (getDomain s))))).
Proof.
  rewrite makePreferredLivekitFoci_promise_run. simpl. split.
  - case_bool_decide as Hlen; [done|].
    intros Heq. by rewrite Heq in Hlen.
  - intros Huse Hdisc Hconf.
    assert (inUseFoci s = []) as ->.
    { unfold inUseFoci. destruct (getFocusInUse s) as [f|]; [|done].
      by rewrite (Huse f eq_refl). }
    assert (fallbackFoci alias = []) as ->.
    { unfold fallbackFoci. by rewrite Hconf. }
    assert (publishedFoci s alias = []) as ->.
    { unfold publishedFoci.
      destruct Hdisc as [-> | Hnone]; [done|].
      destruct (truthy (getDomain s)); [|done].
      destruct (_ ≫= _) as [[|foci]|] eqn:Hk; [done| |done].
      by rewrite (Hnone foci eq_refl). }
    done.
Qed.

End Resolution.

(** matrix-js-sdk's guards, as the library defines them: a focus config has
    type "livekit" and a service URL; a focus has an alias besides. *)
Definition sdk_isLivekitFocusConfig (o : JsObject) : bool :=
  bool_decide (o !! "type" = Some "livekit")
  && bool_decide (is_Some (o !! "livekit_service_url")).

Definition sdk_isLivekitFocus (o : JsObject) : bool :=
  sdk_isLivekitFocusConfig o && bool_decide (is_Some (o !! "livekit_alias")).

(** The fixtures of rtcSessionHelpers.test.ts. *)
Definition focusFromOlderMembership : JsObject :=
  {[ "type" := "livekit";
     "livekit_service_url" := "http://my-oldest-member-service-url.com";
     "livekit_alias" := "my-oldest-member-service-alias" ]}.

Definition focusConfigFromWellKnown : JsObject :=
  {[ "type" := "livekit";
     "livekit_service_url" := "http://my-well-known-service-url.com" ]}.

Definition focusConfigFromWellKnown2 : JsObject :=
  {[ "type" := "livekit";
     "livekit_service_url" := "http://my-well-known-service-url2.com" ]}.

Definition clientWellKnown : gmap string WkValue :=
  {[ FOCI_WK_KEY := WkArray [Some focusConfigFromWellKnown;
                             Some focusConfigFromWellKnown2] ]}.

Definition env_test : Env :=
  {| getRawClientConfig := λ domain,
       if bool_decide (domain = "example.org")
       then Some clientWellKnown else Some ∅;
     livekit_service_url_fromConf := Some "http://my-default-service-url.com" |}.

Definition mockedSession : MatrixRTCSession :=
  {| roomId := "roomId"; getDomain := Some "example.org";
     getFocusInUse := Some focusFromOlderMembership |}.

Lemma makePreferredLivekitFoci_order_witness :
  makePreferredLivekitFoci_promise sdk_isLivekitFocus sdk_isLivekitFocusConfig
    env_test mockedSession "roomId"
  = Resolves
      [ {[ "type" := "livekit";
           "livekit_service_url" := "http://my-oldest-member-service-url.com";
           "livekit_alias" := "my-oldest-member-service-alias" ]};
        {[ "type" := "livekit";
           "livekit_service_url" := "http://my-well-known-service-url.com";
           "livekit_alias" := "roomId" ]};
        {[ "type" := "livekit";
           "livekit_service_url" := "http://my-well-known-service-url2.com";
           "livekit_alias" := "roomId" ]};
        {[ "type" := "livekit";
           "livekit_service_url" := "http://my-default-service-url.com";
           "livekit_alias" := "roomId" ]} ]
  ∧ makePreferredLivekitFoci_promise sdk_isLivekitFocus
      sdk_isLivekitFocusConfig env_test (without_focusInUse mockedSession)
      "roomId"
    = Resolves
        [ {[ "type" := "livekit";
             "livekit_service_url" := "http://my-well-known-service-url.com";
             "livekit_alias" := "roomId" ]};
          {[ "type" := "livekit";
             "livekit_service_url" := "http://my-well-known-service-url2.com";
             "livekit_alias" := "roomId" ]};
          {[ "type" := "livekit";
             "livekit_service_url" := "http://my-default-service-url.com";
             "livekit_alias" := "roomId" ]} ].
Proof.
  assert (sdk_isLivekitFocus focusFromOlderMembership = true) as HA
    by (vm_compute; reflexivity).
  assert (clientWellKnown !! FOCI_WK_KEY
          = Some (WkArray [Some focusConfigFromWellKnown;
                           Some focusConfigFromWellKnown2])) as Hcfg
    by (vm_compute; reflexivity).
  assert (sdk_isLivekitFocusConfig focusConfigFromWellKnown = true) as HB
    by (vm_compute; reflexivity).
  assert (sdk_isLivekitFocusConfig focusConfigFromWellKnown2 = true) as HC
    by (vm_compute; reflexivity).
  assert ("example.org" ≠ "") as Hdomain by discriminate.
  assert ("http://my-default-service-url.com" ≠ "") as Hurl by discriminate.
  destruct (makePreferredLivekitFoci_order sdk_isLivekitFocus
              sdk_isLivekitFocusConfig env_test mockedSession "roomId"
              focusFromOlderMembership focusConfigFromWellKnown
              focusConfigFromWellKnown2 "http://my-default-service-url.com"
              "example.org" clientWellKnown
              eq_refl HA eq_refl Hdomain eq_refl Hcfg HB HC eq_refl Hurl)
    as ((Hwith & Hwithout) & _ & _).
  assert (∀ url : string,
            paired "roomId" {[ "type" := "livekit";
                               "livekit_service_url" := url ]}
            = {[ "type" := "livekit"; "livekit_service_url" := url;
                 "livekit_alias" := "roomId" ]}) as Hpaired.
  { intros url. unfold paired. rewrite <- !insert_empty.
    rewrite (insert_insert_ne _ "livekit_alias" "type") by discriminate.
    by rewrite (insert_insert_ne _ "livekit_alias" "livekit_service_url")
      by discriminate. }
  rewrite Hwith, Hwithout.
  unfold focusFromOlderMembership, focusConfigFromWellKnown,
    focusConfigFromWellKnown2, fallback.
  rewrite !Hpaired. split; reflexivity.
Defined.

(** The fixture of the test "It fails with configuration error if no live
    kit url config is set in fallback". *)
Definition env_unconfigured : Env :=
  {| getRawClientConfig := λ _, Some ∅;
     livekit_service_url_fromConf := None |}.

Definition session_without_focus : MatrixRTCSession :=
  {| roomId := "roomId"; getDomain := Some "example.org";
     getFocusInUse := None |}.

Lemma makePreferredLivekitFoci_never_empty_witness :
  makePreferredLivekitFoci_promise sdk_isLivekitFocus sdk_isLivekitFocusConfig
    env_unconfigured session_without_focus "roomId"
  = Rejects (ThrownError (MatrixRTCFocusMissingError "example.org")).
Proof.
  apply (proj2 (makePreferredLivekitFoci_never_empty sdk_isLivekitFocus
                  sdk_isLivekitFocusConfig env_unconfigured
                  session_without_focus "roomId")).
  - intros f Hf. discriminate Hf.
  - right. intros foci Hfoci. vm_compute in Hfoci. discriminate Hfoci.
  - reflexivity.
Defined.

End RtcSessionHelpers_Facts.

(** ** livekit/useECConnectionState.ts *)

Module ECConnectionState_Facts.
Import AbortHandles OpenIDSFU ECConnectionState.

(** The calls made on the room, told apart. *)
Definition isConnect (e : Event) : bool :=
  match e with
  | Connect _ _ _ _ => true
  | _ => false
  end.

Definition isCreateTracks (e : Event) : bool :=
  match e with
  | CreateTracks _ => true
  | _ => false
  end.

(** *** The unmount cleanup *)

Lemma unmount_handles w h :
  handles (unmount w) !! h
  = if decide (h ∈ abortHandlesBag w) then abort <$> handles w !! h
    else handles w !! h.
Proof.
  unfold unmount; simpl.
  generalize (abortHandlesBag w) as bag. intros bag.
  pose (P := λ (acc : gmap nat AbortHandle) (X : gset nat),
               acc !! h = if decide (h ∈ X) then abort <$> handles w !! h
                          else handles w !! h).
  apply (set_fold_ind_L P); unfold P; clear P.
  - rewrite decide_False; [done|]. apply not_elem_of_empty.
  - intros x X acc Hx IH. rewrite lookup_alter.
    destruct (decide (x = h)) as [->|Hne].
    + rewrite IH, decide_False by done.
      rewrite decide_True; [done|].
      apply elem_of_union_l, elem_of_singleton. reflexivity.
    + rewrite IH.
      destruct (decide (h ∈ X)) as [Hin|Hnin].
      * rewrite decide_True; [done|]. by apply elem_of_union_r.
      * rewrite decide_False; [done|].
        intros [Heq%elem_of_singleton|Hin]%elem_of_union; [|done].
        by apply Hne.
Qed.

(** Unmounting aborts every handle of the bag. *)
Lemma unmount_aborts w h :
  h ∈ abortHandlesBag w → is_Some (handles w !! h) →
  aborted_at h (unmount w) = true.
Proof.
  intros Hin [a Ha]. unfold aborted_at.
  by rewrite unmount_handles, decide_True, Ha.
Qed.

(** [abort] is monotonic: a handle that was aborted stays so. *)
Lemma unmount_monotonic w h :
  aborted_at h w = true → aborted_at h (unmount w) = true.
Proof.
  unfold aborted_at. rewrite unmount_handles.
  case_decide; [|done]. by destruct (handles w !! h).
Qed.

(** *** Worlds that differ by appended events *)

Definition add_events (l : list Event) (w : World) : World :=
  set_trace (λ t, t ++ l)%list w.

Lemma add_events_nil w : add_events [] w = w.
Proof. destruct w. unfold add_events, set_trace; simpl. by rewrite app_nil_r. Qed.

Lemma add_events_add_events l1 l2 w :
  add_events l2 (add_events l1 w) = add_events (l1 ++ l2) w.
Proof. unfold add_events, set_trace; simpl. by rewrite app_assoc. Qed.

Lemma emit_run e w : emit e w = (Normal tt, add_events [e] w).
Proof. done. Qed.

Lemma bind_run {S A B} (m : M S A) (f : A → M S B) (s : S) :
  (m ≫= f) s = match m s with
               | (Normal a, s') => f a s'
               | (Returned, s') => (Returned, s')
               | (Threw t, s') => (Threw t, s')
               end.
Proof. done. Qed.

Section Runs.
Variable env : Env.

(** The events of the screen-share loop. *)
Definition publish_events (ss : list MediaStreamTrack) : list Event :=
  map (λ st, PublishTrack (OfMediaStreamTrack st) ScreenShare) ss.

Definition publish_failure_logs (ss : list MediaStreamTrack) : list Event :=
  omap (λ st,
        match publishTrack env (OfMediaStreamTrack st) ScreenShare with
        | Rejects _ => Some (Log LogError "Failed to publish screenshare track")
        | Resolves _ => None
        end) ss.

Lemma mapM_publish ss w :
  ∃ us,
    mapM (λ st, emit (PublishTrack (OfMediaStreamTrack st) ScreenShare)) ss w
    = (Normal us, add_events (publish_events ss) w).
Proof.
  revert w. induction ss as [|st ss IH]; intros w; simpl.
  - exists []. by rewrite add_events_nil.
  - unfold_monad. rewrite emit_run.
    destruct (IH (add_events [PublishTrack (OfMediaStreamTrack st) ScreenShare] w))
      as [us ->].
    eexists. by rewrite add_events_add_events.
Qed.

Lemma mapM_publish_failures ss w :
  ∃ us,
    mapM (λ st,
          match publishTrack env (OfMediaStreamTrack st) ScreenShare with
          | Rejects _ => log LogError "Failed to publish screenshare track"
          | Resolves _ => mret tt
          end) ss w
    = (Normal us, add_events (publish_failure_logs ss) w).
Proof.
  revert w. induction ss as [|st ss IH]; intros w; simpl.
  - exists []. by rewrite add_events_nil.
  - unfold_monad.
    destruct (publishTrack env _ _); simpl.
    + destruct (IH w) as [us ->]. by eexists.
    + change (set_trace _ w)
        with (add_events [Log LogError "Failed to publish screenshare track"] w).
      destruct (IH (add_events [Log LogError "Failed to publish screenshare track"] w))
        as [us ->].
      eexists. by rewrite add_events_add_events.
Qed.

Lemma publishScreenshareTracks_run ss w :
  publishScreenshareTracks env ss w
  = (Normal tt, add_events (publish_events ss ++ publish_failure_logs ss) w).
Proof.
  unfold publishScreenshareTracks. rewrite bind_run.
  destruct (mapM_publish ss w) as [us ->]. rewrite bind_run.
  destruct (mapM_publish_failures ss (add_events (publish_events ss) w))
    as [us' ->].
  by rewrite add_events_add_events.
Qed.

End Runs.

(** *** Counting the calls made on the room *)

Definition count_events (p : Event → bool) (t : list Event) : nat :=
  length (List.filter p t).

Lemma count_events_app p t1 t2 :
  count_events p (t1 ++ t2) = (count_events p t1 + count_events p t2)%nat.
Proof. unfold count_events. by rewrite List.filter_app, length_app. Qed.

Definition isStop (t : LocalTrack) (e : Event) : bool :=
  match e with
  | Stop t' => bool_decide (t' = t)
  | _ => false
  end.

Definition isDisconnect (e : Event) : bool :=
  match e with
  | Disconnect => true
  | _ => false
  end.

Definition isMicrophonePublish (e : Event) : bool :=
  match e with
  | PublishTrack _ Microphone => true
  | _ => false
  end.

(** *** Handles registered in the bag *)

Definition registered (h : nat) (w : World) : Prop :=
  h ∈ abortHandlesBag w ∧ is_Some (handles w !! h).

Lemma registered_set_trace h f w : registered h w → registered h (set_trace f w).
Proof. done. Qed.

Lemma registered_unmount h w : registered h w → registered h (unmount w).
Proof.
  intros [Hin [a Ha]]. split; [done|].
  rewrite unmount_handles, decide_True, Ha by done. by eexists.
Qed.

Lemma registered_aborted h w : registered h w → aborted_at h (unmount w) = true.
Proof. intros [??]. by apply unmount_aborts. Qed.

Lemma aborted_at_set_trace h f w :
  aborted_at h (set_trace f w) = aborted_at h w.
Proof. done. Qed.

#[local] Hint Resolve registered_set_trace registered_unmount : core.

(** *** What an attempt leaves alone *)

(** A computation keeps a relation between the worlds when every run ends in
    a world related to the one it started from. *)
Section Framing.
Context (R : relation World) `{!PreOrder R}.

Definition keeps {A} (m : M World A) : Prop := ∀ w, R w (snd (m w)).

Lemma keeps_ret {A} (a : A) : keeps (mret a).
Proof. intros w. reflexivity. Qed.

Lemma keeps_bind {A B} (m : M World A) (f : A → M World B) :
  keeps m → (∀ a, keeps (f a)) → keeps (m ≫= f).
Proof.
  intros Hm Hf w. unfold mbind, M_bind. specialize (Hm w).
  destruct (m w) as [[a| |t] w']; simpl in *; [|done..].
  etrans; [done|]. apply Hf.
Qed.

Lemma keeps_return {A} : keeps (return_ (A:=A)).
Proof. intros w. reflexivity. Qed.

Lemma keeps_throw {A} t : keeps (throw (A:=A) t).
Proof. intros w. reflexivity. Qed.

Lemma keeps_settle {A} (p : Settled A) : keeps (settle p).
Proof. intros w. destruct p; reflexivity. Qed.

Lemma keeps_gets {A} (f : World → A) : keeps (gets f).
Proof. intros w. reflexivity. Qed.

Lemma keeps_modify (f : World → World) : (∀ w, R w (f w)) → keeps (modify f).
Proof. intros Hf w. apply Hf. Qed.

Lemma keeps_try_catch {A} (body : M World A) handler :
  keeps body → (∀ t, keeps (handler t)) → keeps (try_catch body handler).
Proof.
  intros Hm Hf w. unfold try_catch. specialize (Hm w).
  destruct (body w) as [[a| |t] w']; simpl in *; [done..|].
  etrans; [done|]. apply Hf.
Qed.

Lemma keeps_try_finally {A} (body : M World A) final :
  keeps body → keeps final → keeps (try_finally body final).
Proof.
  intros Hm Hf w. unfold try_finally. specialize (Hm w).
  destruct (body w) as [r w']; simpl in *. etrans; [done|]. apply Hf.
Qed.

Lemma keeps_function body : keeps body → keeps (function_ body).
Proof.
  intros Hm w. unfold function_. specialize (Hm w).
  by destruct (body w) as [[a| |t] w'].
Qed.

Lemma keeps_mapM {A B} (f : A → M World B) l :
  (∀ a, keeps (f a)) → keeps (mapM f l).
Proof.
  intros Hf. induction l as [|a l IH]; simpl; [apply keeps_ret|].
  apply keeps_bind; [done|]. intros b.
  apply keeps_bind; [done|]. intros bs. apply keeps_ret.
Qed.

End Framing.

(** Decomposes a goal [keeps R m] along the structure of [m]. *)
Ltac keeps_step :=
  match goal with
  | |- keeps _ (@mbind _ _ _ _ _ _) =>
      refine (keeps_bind _ _ _ _ _); [|intros ?]
  | |- keeps _ (@mret _ _ _ _) => refine (keeps_ret _ _)
  | |- keeps _ return_ => refine (keeps_return _)
  | |- keeps _ (throw _) => refine (keeps_throw _ _)
  | |- keeps _ (settle _) => refine (keeps_settle _ _)
  | |- keeps _ (gets _) => refine (keeps_gets _ _)
  | |- keeps _ (modify _) => refine (keeps_modify _ _ _)
  | |- keeps _ (try_catch _ _) =>
      refine (keeps_try_catch _ _ _ _ _); [|intros ?]
  | |- keeps _ (try_finally _ _) => refine (keeps_try_finally _ _ _ _ _)
  | |- keeps _ (function_ _) => refine (keeps_function _ _ _)
  | |- keeps _ (mapM _ _) => refine (keeps_mapM _ _ _ _); intros ?
  | |- keeps _ (if ?b then _ else _) => destruct b
  | |- keeps _ (match ?x with _ => _ end) => destruct x
  end.

(** What an attempt leaves of the hook's state. *)
Definition hook_frame (w w' : World) : Prop :=
  abortHandlesBag w' = abortHandlesBag w
  ∧ currentSFUConfig w' = currentSFUConfig w
  ∧ connState w' = connState w
  ∧ error w' = error w.

Definition attempt_frame (w w' : World) : Prop :=
  hook_frame w w'
  ∧ isSwitchingFocus w' = isSwitchingFocus w
  ∧ isInDoConnect w' = isInDoConnect w.

#[local] Instance hook_frame_preorder : PreOrder hook_frame.
Proof.
  split.
  - by intros w.
  - intros a b c (?&?&?&?) (?&?&?&?). repeat split; congruence.
Qed.

#[local] Instance attempt_frame_preorder : PreOrder attempt_frame.
Proof.
  split.
  - by intros w.
  - intros a b c ((?&?&?&?)&?&?) ((?&?&?&?)&?&?). repeat split; congruence.
Qed.

Section Frames.
Variable env : Env.

Ltac keeps_tac :=
  unfold connectAndPublish, publishScreenshareTracks, await, suspend,
    isAborted_at, stop_opt, log, emit;
  repeat keeps_step; try done.

Lemma connectAndPublish_attempt_frame cfg mic ss :
  keeps attempt_frame (connectAndPublish env cfg mic ss).
Proof. keeps_tac. Qed.

Lemma doConnect_attempt_frame cfg audioEnabled dev h :
  keeps attempt_frame (doConnect env cfg audioEnabled dev h).
Proof.
  unfold doConnect.
  repeat keeps_step; try apply connectAndPublish_attempt_frame.
  all: keeps_tac.
Qed.

Lemma doFocusSwitch_hook_frame cfg :
  keeps hook_frame (doFocusSwitch env cfg).
Proof.
  unfold doFocusSwitch.
  repeat keeps_step; try done.
  all: try (intros w; apply (connectAndPublish_attempt_frame cfg None _ w)).
  all: keeps_tac.
Qed.

End Frames.

(** *** Bounds on the calls of an attempt *)

Section Bounds.
Variable p : Event → bool.

Definition quiet : relation World :=
  λ w w', count_events p (trace w') = count_events p (trace w).

#[export] Instance quiet_preorder : PreOrder quiet.
Proof.
  split; [by intros w|]. unfold quiet. intros a b c ??. congruence.
Qed.

Definition at_most {A} (n : nat) (m : M World A) : Prop :=
  ∀ w, (count_events p (trace (snd (m w)))
        ≤ count_events p (trace w) + n)%nat.

Lemma at_most_quiet {A} (m : M World A) : keeps quiet m → at_most 0 m.
Proof. intros Hm w. rewrite (Hm w). lia. Qed.

Lemma at_most_weaken {A} n n' (m : M World A) :
  (n ≤ n')%nat → at_most n m → at_most n' m.
Proof. intros Hn Hm w. specialize (Hm w). lia. Qed.

Lemma at_most_bind {A B} n1 n2 (m : M World A) (f : A → M World B) :
  at_most n1 m → (∀ a, at_most n2 (f a)) → at_most (n1 + n2) (m ≫= f).
Proof.
  intros Hm Hf w. unfold mbind, M_bind. specialize (Hm w).
  destruct (m w) as [[a| |t] w']; simpl in *; [|lia..].
  specialize (Hf a w'). lia.
Qed.

Lemma at_most_try_catch {A} n1 n2 (body : M World A) handler :
  at_most n1 body → (∀ t, at_most n2 (handler t)) →
  at_most (n1 + n2) (try_catch body handler).
Proof.
  intros Hm Hf w. unfold try_catch. specialize (Hm w).
  destruct (body w) as [[a| |t] w']; simpl in *; [lia..|].
  specialize (Hf t w'). lia.
Qed.

Lemma at_most_function n body : at_most n body → at_most n (function_ body).
Proof.
  intros Hm w. unfold function_. specialize (Hm w).
  by destruct (body w) as [[a| |t] w'].
Qed.

Lemma at_most_emit e : at_most 1 (emit e).
Proof.
  intros w. simpl. rewrite count_events_app. unfold count_events; simpl.
  destruct (p e); simpl; lia.
Qed.

End Bounds.

(** A block that makes no call of the kind counted. *)
Ltac quiet_tac :=
  solve [ apply at_most_quiet;
          unfold connectAndPublish, publishScreenshareTracks, await, suspend,
            isAborted_at, stop_opt, log, emit;
          repeat keeps_step; try done;
          intros ?; unfold quiet, count_events; simpl;
          rewrite ?List.filter_app, ?length_app; simpl; lia ].

(** A block that makes at most one such call. *)
Ltac at_most_one :=
  lazymatch goal with
  | |- at_most _ 1 (function_ _) => apply at_most_function; at_most_one
  | |- at_most _ 1 (try_catch _ _) =>
      apply (at_most_try_catch _ 1 0); [at_most_one | intros ?; quiet_tac]
  | |- at_most _ 1 (@mbind _ _ _ _ _ _) =>
      first [ apply (at_most_bind _ 0 1); [quiet_tac | intros ?; at_most_one]
            | apply (at_most_bind _ 1 0); [at_most_one | intros ?; quiet_tac] ]
  | |- at_most _ 1 (if ?b then _ else _) => destruct b; at_most_one
  | |- at_most _ 1 (match ?x with _ => _ end) => destruct x; at_most_one
  | |- at_most _ 1 (connectAndPublish _ _ _ _) =>
      unfold connectAndPublish; at_most_one
  | |- at_most _ 1 (await _ _ _ _) => unfold await; at_most_one
  | |- at_most _ 1 (emit _) => apply at_most_emit
  | |- _ => apply (at_most_weaken _ 0 1); [lia | quiet_tac]
  end.

Section Attempts.
Variable env : Env.

#[local] Arguments publishScreenshareTracks : simpl never.

(** The handle was registered when the component was unmounted. *)
Ltac solve_registered :=
  rewrite ?aborted_at_set_trace;
  first [ apply registered_aborted | apply unmount_monotonic ];
  rewrite ?aborted_at_set_trace;
  eauto 20 using registered_set_trace, registered_unmount, registered_aborted.

(** One step of a run: case analysis on the next answer of the room. *)
Ltac run_step :=
  match goal with
  | |- context [publishScreenshareTracks ?e ?ss ?w] =>
      rewrite (publishScreenshareTracks_run e ss w)
  | |- context [hasMicrophonePublication ?e AtStart] =>
      destruct (hasMicrophonePublication e AtStart) eqn:?
  | |- context [unmountedDuring ?e AwaitCreateTracks] =>
      destruct (unmountedDuring e AwaitCreateTracks) eqn:?
  | |- context [createTracks ?e ?d] =>
      destruct (createTracks e d) as [[|? ?]|?] eqn:?
  | |- context [aborted_at ?h ?w] =>
      first [ replace (aborted_at h w) with true
                by (symmetry; solve_registered)
            | match goal with
              | H : aborted_at h _ = false |- _ =>
                  replace (aborted_at h w) with false
                    by (symmetry; rewrite ?aborted_at_set_trace; exact H)
              end
            | destruct (aborted_at h w) eqn:? ]
  | |- context [if negb ?b then _ else _] => is_var b; destruct b
  | |- context [unmountedDuring ?e AwaitMute] =>
      destruct (unmountedDuring e AwaitMute) eqn:?
  | |- context [mute ?e ?t] => destruct (mute e t) as [[]|?] eqn:?
  | |- context [hasMicrophonePublication ?e AfterPreCreate] =>
      destruct (hasMicrophonePublication e AfterPreCreate) eqn:?
  | |- context [unmountedDuring ?e AwaitConnect] =>
      destruct (unmountedDuring e AwaitConnect) eqn:?
  | |- context [connect ?e ?u ?j] => destruct (connect e u j) as [[]|?] eqn:?
  | |- context [isCapacityError ?t] => destruct (isCapacityError t) eqn:?
  | |- context [unmountedDuring ?e AwaitPublishMic] =>
      destruct (unmountedDuring e AwaitPublishMic) eqn:?
  | |- context [publishTrack ?e ?t ?s] =>
      destruct (publishTrack e t s) as [[]|?] eqn:?
  | |- context [unmountedDuring ?e AwaitDisconnect] =>
      destruct (unmountedDuring e AwaitDisconnect) eqn:?
  | |- context [disconnect ?e] => destruct (disconnect e) as [[]|?] eqn:?
  end; simpl.

Ltac unfold_attempt :=
  unfold doConnect, doFocusSwitch, connectAndPublish, await, suspend,
    isAborted_at, stop_opt, log, emit;
  unfold_monad.

Ltac run := simpl; repeat run_step.

Ltac count :=
  unfold count_events; rewrite ?List.filter_app, ?length_app; simpl;
  rewrite ?bool_decide_eq_true_2 by done; simpl; try lia.

(** The mute step of a muted start does not fail: [mute()] resolves on the
    track that [createTracks] hands out. *)
Definition mute_resolves (audioEnabled : bool) (dev : option string) : Prop :=
  audioEnabled = false →
  ∀ t tracks, createTracks env dev = Resolves (t :: tracks) →
              mute env t = Resolves tt.

(** Closes the runs in which [mute()] rejected although it resolves. *)
Ltac mute_resolved Hm :=
  match goal with
  | Hc : createTracks env ?d = Resolves (?t :: ?ts),
    Hr : mute env ?t = Rejects _ |- _ =>
      rewrite (Hm eq_refl t ts Hc) in Hr; discriminate Hr
  end.

(** C10: when the participant already has a microphone publication, at the
    start of [doConnect] or at the check made after the audio track was
    pre-created, the attempt never calls [connect].  Found at the start, it
    ends the attempt normally before anything is asked of the capture
    device.  Found at the re-check, which is reached unless [mute()] fails
    on a muted start, it ends the attempt normally with the pre-created
    track stopped. *)
Theorem doConnect_microphone_already_published cfg audioEnabled dev h w :
  hasMicrophonePublication env AtStart = true
  ∨ hasMicrophonePublication env AfterPreCreate = true →
  let r := doConnect env cfg audioEnabled dev h w in
  count_events isConnect (trace (snd r)) = count_events isConnect (trace w)
  ∧ (hasMicrophonePublication env AtStart = true →
     fst r = Normal tt
     ∧ count_events isCreateTracks (trace (snd r))
       = count_events isCreateTracks (trace w))
  ∧ (mute_resolves audioEnabled dev →
     fst r = Normal tt
     ∧ (hasMicrophonePublication env AtStart = false →
        ∀ t tracks, createTracks env dev = Resolves (t :: tracks) →
        count_events (isStop t) (trace (snd r))
        = S (count_events (isStop t) (trace w)))).
Proof.
  intros [Hpub|Hpub].
  - unfold_attempt. rewrite Hpub. simpl.
    split; [count|]. split; [intros _; split; [done|count]|].
    intros _. split; [done|]. intros Hno; congruence.
  - unfold_attempt. rewrite Hpub.
    run.
    all: (split; [count|]).
    all: (split; [intros Hat; first [discriminate Hat | split; [done|count]]|]).
    all: intros Hm; try (by mute_resolved Hm).
    all: split; [done|].
    all: intros Hf t' tracks' Hres; try discriminate Hf;
      try discriminate Hres; inversion Hres; subst; count.
Qed.

(** An attempt cancelled while the capture device is acquired, or while the
    track is muted, never reaches the transport, provided the acquisition
    itself succeeded. *)
Lemma doConnect_cancelled_after_acquisition cfg audioEnabled dev h w tracks :
  registered h w →
  createTracks env dev = Resolves tracks →
  unmountedDuring env AwaitCreateTracks = true
  ∨ (audioEnabled = false ∧ unmountedDuring env AwaitMute = true
     ∧ ∀ t, head tracks = Some t → mute env t = Resolves tt) →
  let r := doConnect env cfg audioEnabled dev h w in
  fst r = Normal tt
  ∧ count_events isConnect (trace (snd r)) = count_events isConnect (trace w)
  ∧ (hasMicrophonePublication env AtStart = false →
     ∀ t, head tracks = Some t →
     count_events (isStop t) (trace (snd r))
     = S (count_events (isStop t) (trace w))).
Proof.
  intros Hreg Hres [Hun|(-> & Hun & Hm)]; unfold_attempt; rewrite Hres, Hun;
    destruct tracks as [|t0 tracks].
  all: run.
  all: try match goal with
           | Hm : ∀ t, head _ = Some t → _, Hr : mute env ?t = Rejects _ |- _ =>
               rewrite (Hm t eq_refl) in Hr; discriminate Hr
           end.
  all: (split; [done|]); (split; [count|]); intros Hno tr Hhead;
    try discriminate Hno; simpl in Hhead; try discriminate Hhead;
    injection Hhead as ->; count.
Qed.

(** How [connectAndPublish] passes a failure of [connect] on. *)
Definition classify (t : Thrown) : Thrown :=
  if isCapacityError t then ThrownError InsufficientCapacityError else t.

Lemma isCapacityError_spec t :
  isCapacityError t = true
  ↔ ∃ msg reason status,
      t = ThrownError (ConnectionError msg reason (Some status))
      ∧ (status = 503 ∨ status = 200 ∨ status = 429).
Proof.
  split.
  - destruct t as [[| msg reason [status|] | | | | | | |]|]; simpl; try done.
    rewrite !orb_true_iff, !bool_decide_eq_true.
    intros Hs. exists msg, reason, status. split; [done|].
    destruct Hs as [[Hs|Hs]|Hs]; injection Hs as ->; auto.
  - intros (msg & reason & status & -> & Hs); simpl.
    rewrite !orb_true_iff, !bool_decide_eq_true.
    destruct Hs as [->| [->| ->]]; auto.
Qed.

Lemma connectAndPublish_connect_rejected cfg mic ss w t :
  connect env (url cfg) (jwt cfg) = Rejects t →
  fst (connectAndPublish env cfg mic ss w) = Threw (classify t).
Proof.
  intros Hc. unfold_attempt. rewrite Hc. unfold classify. run; done.
Qed.

Lemma doConnect_connect_rejected cfg audioEnabled dev h w t :
  hasMicrophonePublication env AtStart = false →
  hasMicrophonePublication env AfterPreCreate = false →
  unmountedDuring env AwaitCreateTracks = false →
  unmountedDuring env AwaitMute = false →
  mute_resolves audioEnabled dev →
  aborted_at h w = false →
  connect env (url cfg) (jwt cfg) = Rejects t →
  let r := doConnect env cfg audioEnabled dev h w in
  fst r = Threw (classify t)
  ∧ count_events isConnect (trace (snd r))
    = S (count_events isConnect (trace w))
  ∧ error (snd r) = error w.
Proof.
  intros H1 H2 H3 H4 Hm Hna Hc. unfold_attempt. rewrite H1, H2, H3, H4, Hc.
  unfold classify. run.
  all: try (by mute_resolved Hm).
  all: split; [done|]; split; [count|done].
Qed.

#[local] Arguments doConnect : simpl never.
#[local] Arguments doFocusSwitch : simpl never.

(** What the [.catch] on the [doConnect] promise leaves in the [error]
    state, for what [doConnect] threw. *)
Definition surfaced (before : option JsError) (t : Thrown) : option JsError :=
  match t with
  | ThrownError e =>
      Some (if isElementCallError e then e else UnknownCallError e)
  | ThrownValue _ => before
  end.

Lemma sfuConfigEffect_connect_rejected cfg audioEnabled dev w t :
  sfuConfigValid (Some cfg) = true →
  sfuConfigValid (Some (currentSFUConfig w)) = false →
  hasMicrophonePublication env AtStart = false →
  hasMicrophonePublication env AfterPreCreate = false →
  unmountedDuring env AwaitCreateTracks = false →
  unmountedDuring env AwaitMute = false →
  mute_resolves audioEnabled dev →
  connect env (url cfg) (jwt cfg) = Rejects t →
  error (snd (sfuConfigEffect env dev audioEnabled (Some cfg) w))
  = surfaced (error w) (classify t).
Proof.
  intros Hv Hcur H1 H2 H3 H4 Hm Hc.
  unfold sfuConfigEffect, alloc_AbortHandle, onDoConnectRejected.
  unfold_monad. simpl. rewrite Hv, Hcur. simpl.
  match goal with
  | |- context [doConnect env ?c ?a ?d ?h ?w0] =>
      pose proof (doConnect_connect_rejected c a d h w0 t H1 H2 H3 H4 Hm)
        as Hrun;
      destruct (doConnect env c a d h w0) as [res w1] eqn:Hdo
  end.
  simpl in Hrun.
  destruct Hrun as (-> & _ & Herr);
    [unfold aborted_at; simpl; by rewrite lookup_insert_eq | done |].
  unfold surfaced. simpl in Herr.
  destruct (classify t) as [e|v]; simpl.
  - destruct (isElementCallError e); reflexivity.
  - unfold log, emit. unfold_monad. simpl. exact Herr.
Qed.

(** *** The focus switch *)

Lemma filter_publish_events p ss :
  (∀ st, p (PublishTrack (OfMediaStreamTrack st) ScreenShare) = false) →
  List.filter p (publish_events ss) = [].
Proof.
  intros Hp. induction ss as [|st ss IH]; simpl; [done|]. by rewrite Hp.
Qed.

Lemma filter_publish_failure_logs p ss :
  (∀ l msg, p (Log l msg) = false) →
  List.filter p (publish_failure_logs env ss) = [].
Proof.
  intros Hp. induction ss as [|st ss IH]; simpl; [done|].
  destruct (publishTrack env _ _); simpl; [done|]. by rewrite Hp.
Qed.

(** The published screen-share tracks that carry a track. *)
Definition activeScreenshareTracks (pubs : list TrackPublication)
  : list MediaStreamTrack :=
  omap (λ t, if bool_decide (source t = ScreenShare) then track t else None)
    pubs.

Lemma collectScreenshareTracks_clones pubs :
  collectScreenshareTracks pubs
  = map (λ tr, set_enabled true (clone tr)) (activeScreenshareTracks pubs).
Proof.
  induction pubs as [|[[tr|] src] pubs IH]; simpl; [done| |].
  - destruct (bool_decide (src = ScreenShare)); simpl; by rewrite IH.
  - by destruct (bool_decide (src = ScreenShare)).
Qed.

(** The events of a successful switch, after the disconnect. *)
Definition reconnect_events (cfg : SFUConfig) (clones : list MediaStreamTrack)
  : list Event :=
  [ Log LogInfo ("[Lifecycle] Connecting to livekit room "
                 +:+ default "undefined" (url cfg) +:+ " ...");
    Connect (url cfg) (jwt cfg)
      (default 45000 (window_peerConnectionTimeout env))
      (default 45000 (window_websocketTimeout env));
    Log LogInfo "[Lifecycle] ... connected to livekit room";
    Log LogInfo ("Publishing " +:+ pretty (length clones)
                 +:+ " precreated screenshare tracks") ]
  ++ publish_events clones ++ publish_failure_logs env clones.

Lemma doFocusSwitch_no_capture cfg w :
  let r := doFocusSwitch env cfg w in
  count_events isCreateTracks (trace (snd r))
  = count_events isCreateTracks (trace w)
  ∧ count_events isMicrophonePublish (trace (snd r))
    = count_events isMicrophonePublish (trace w).
Proof.
  unfold_attempt. run.
  all: split; unfold count_events;
    rewrite ?List.filter_app, ?filter_publish_events,
      ?filter_publish_failure_logs, ?length_app by done; simpl; lia.
Qed.

Lemma doFocusSwitch_run cfg w :
  disconnect env = Resolves tt →
  connect env (url cfg) (jwt cfg) = Resolves tt →
  let clones := collectScreenshareTracks (videoTrackPublications env) in
  let r := doFocusSwitch env cfg w in
  fst r = Normal tt
  ∧ trace (snd r) = (trace w ++ Disconnect :: reconnect_events cfg clones)%list
  ∧ isSwitchingFocus (snd r) = true
  ∧ isInDoConnect (snd r) = false.
Proof.
  intros Hd Hc. unfold_attempt. rewrite Hd, Hc. run.
  all: repeat split; try done.
  all: unfold reconnect_events; rewrite <- ?app_assoc; simpl; done.
Qed.

(** *** The effect on a change of [sfuConfig] *)

Lemma sfuConfigEquals_valid cur cfg :
  sfuConfigEquals (Some cur) cfg = true →
  ∃ c, cfg = Some c ∧ url c = url cur ∧ jwt c = jwt cur.
Proof.
  destruct cfg as [c|]; [|done].
  intros [??]%OpenIDSFU_Facts.sfuConfigEquals_Some. eauto.
Qed.

Lemma sfuConfigEffect_unchanged cfg audioEnabled dev w :
  sfuConfigValid (Some (currentSFUConfig w)) = true →
  sfuConfigEquals (Some (currentSFUConfig w)) cfg = true →
  sfuConfigEffect env dev audioEnabled cfg w = (Normal tt, w).
Proof.
  intros Hv Heq.
  destruct (sfuConfigEquals_valid _ _ Heq) as (c & -> & Hu & Hj).
  unfold sfuConfigEffect. unfold_monad. simpl.
  rewrite Heq, Hv. rewrite andb_false_r. simpl.
  destruct w as [? ? ? [u j] ? ? ? ?]; simpl in *. subst.
  reflexivity.
Qed.

Lemma sfuConfigEffect_switches cfg audioEnabled dev w :
  sfuConfigValid (Some (currentSFUConfig w)) = true →
  sfuConfigValid (Some cfg) = true →
  sfuConfigEquals (Some (currentSFUConfig w)) (Some cfg) = false →
  let r := sfuConfigEffect env dev audioEnabled (Some cfg) w in
  count_events isDisconnect (trace (snd r))
  = S (count_events isDisconnect (trace w))
  ∧ isSwitchingFocus (snd r) = true
  ∧ currentSFUConfig (snd r) = cfg.
Proof.
  intros Hv Hv' Hne.
  unfold sfuConfigEffect. unfold_monad. simpl.
  rewrite Hne, Hv, Hv'. simpl.
  unfold_attempt. run.
  all: split; [|split; [done|by destruct cfg]].
  all: unfold count_events;
    rewrite ?List.filter_app, ?filter_publish_events,
      ?filter_publish_failure_logs, ?length_app by done; simpl; lia.
Qed.

(** A failure of [connectAndPublish] during a focus switch only reaches the
    logger. *)
Lemma sfuConfigEffect_switch_rejected cfg audioEnabled dev w t :
  sfuConfigValid (Some (currentSFUConfig w)) = true →
  sfuConfigValid (Some cfg) = true →
  sfuConfigEquals (Some (currentSFUConfig w)) (Some cfg) = false →
  disconnect env = Resolves tt →
  connect env (url cfg) (jwt cfg) = Rejects t →
  let r := sfuConfigEffect env dev audioEnabled (Some cfg) w in
  error (snd r) = error w
  ∧ last (trace (snd r)) = Some (Log LogError "Failed to switch focus").
Proof.
  intros Hv Hv' Hne Hd Hc.
  unfold sfuConfigEffect. unfold_monad. simpl.
  rewrite Hne, Hv, Hv'. simpl.
  unfold_attempt. simpl. rewrite Hd. simpl. rewrite Hc. run.
  all: split; [done|]; by rewrite last_snoc.
Qed.

(** *** The claims about the controller *)

(** C2, as the code has it: a failure [t] of the transport's [connect]
    leaves [connectAndPublish] as [InsufficientCapacityError] exactly when
    [t] is a [ConnectionError] with status 503, 200 or 429, and as [t]
    itself otherwise (status 400, say).  On an initial connect that reaches
    the transport (no publication is found, the component stays mounted and
    [mute()] does not fail), the controller stores what it got when that is
    an [ElementCallError], stores an [UnknownCallError] wrapping it when it
    is another [Error], and stores nothing when it is no [Error]; during a
    focus switch the failure is logged and nothing is stored. *)
Theorem connect_failure_classification cfg mic ss audioEnabled dev w t :
  connect env (url cfg) (jwt cfg) = Rejects t →
  fst (connectAndPublish env cfg mic ss w)
  = Threw (if isCapacityError t then ThrownError InsufficientCapacityError
           else t)
  ∧ (isCapacityError t = true
     ↔ ∃ msg reason status,
         t = ThrownError (ConnectionError msg reason (Some status))
         ∧ (status = 503 ∨ status = 200 ∨ status = 429))
  ∧ (sfuConfigValid (Some cfg) = true →
     sfuConfigValid (Some (currentSFUConfig w)) = false →
     hasMicrophonePublication env AtStart = false →
     hasMicrophonePublication env AfterPreCreate = false →
     unmountedDuring env AwaitCreateTracks = false →
     unmountedDuring env AwaitMute = false →
     mute_resolves audioEnabled dev →
     error (snd (sfuConfigEffect env dev audioEnabled (Some cfg) w))
     = match (if isCapacityError t
              then ThrownError InsufficientCapacityError else t) with
       | ThrownError e =>
           Some (if isElementCallError e then e else UnknownCallError e)
       | ThrownValue _ => error w
       end)
  ∧ (sfuConfigValid (Some (currentSFUConfig w)) = true →
     sfuConfigValid (Some cfg) = true →
     sfuConfigEquals (Some (currentSFUConfig w)) (Some cfg) = false →
     disconnect env = Resolves tt →
     error (snd (sfuConfigEffect env dev audioEnabled (Some cfg) w)) = error w
     ∧ last (trace (snd (sfuConfigEffect env dev audioEnabled (Some cfg) w)))
       = Some (Log LogError "Failed to switch focus")).
Proof.
  intros Hc. split; [|split; [|split]].
  - by rewrite (connectAndPublish_connect_rejected cfg mic ss w _ Hc).
  - apply isCapacityError_spec.
  - intros Hv Hcur H1 H2 H3 H4 Hm.
    by rewrite (sfuConfigEffect_connect_rejected cfg audioEnabled dev w t
                  Hv Hcur H1 H2 H3 H4 Hm Hc).
  - intros Hv Hv' Hne Hd.
    apply (sfuConfigEffect_switch_rejected cfg audioEnabled dev w t
             Hv Hv' Hne Hd Hc).
Qed.

(** A thrown value that is no [Error] is only logged by the controller. *)
Lemma onDoConnectRejected_non_error v w :
  error (snd (onDoConnectRejected (ThrownValue v) w)) = error w.
Proof. done. Qed.

(** C6: a focus switch never asks the capture device for tracks and never
    publishes a microphone track; when the disconnect and the new connect
    succeed it ends normally, whatever happens to the screen-share
    publications, having disconnected, connected with the new config and
    published a clone of each published screen-share track, each failure to
    publish being logged. *)
Theorem doFocusSwitch_carries_screenshare cfg w :
  let clones := collectScreenshareTracks (videoTrackPublications env) in
  let r := doFocusSwitch env cfg w in
  (count_events isCreateTracks (trace (snd r))
   = count_events isCreateTracks (trace w)
   ∧ count_events isMicrophonePublish (trace (snd r))
     = count_events isMicrophonePublish (trace w))
  ∧ clones = map (λ tr, set_enabled true (clone tr))
               (activeScreenshareTracks (videoTrackPublications env))
  ∧ (disconnect env = Resolves tt →
     connect env (url cfg) (jwt cfg) = Resolves tt →
     fst r = Normal tt
     ∧ trace (snd r)
       = (trace w ++
          [ Disconnect;
            Log LogInfo ("[Lifecycle] Connecting to livekit room "
                         +:+ default "undefined" (url cfg) +:+ " ...");
            Connect (url cfg) (jwt cfg)
              (default 45000 (window_peerConnectionTimeout env))
              (default 45000 (window_websocketTimeout env));
            Log LogInfo "[Lifecycle] ... connected to livekit room";
            Log LogInfo ("Publishing " +:+ pretty (length clones)
                         +:+ " precreated screenshare tracks") ]
          ++ map (λ st, PublishTrack (OfMediaStreamTrack st) ScreenShare)
               clones
          ++ publish_failure_logs env clones)%list
     ∧ isSwitchingFocus (snd r) = true).
Proof.
  simpl. split; [apply doFocusSwitch_no_capture|].
  split; [apply collectScreenshareTracks_clones|].
  intros Hd Hc.
  destruct (doFocusSwitch_run cfg w Hd Hc) as (Hres & Htr & Hsw & _).
  repeat split; try done.
Qed.

(** C7: when the current config is valid and the supplied one equals it by
    value, the effect takes neither branch: the world, with its trace of
    calls on the room, is left as it was. *)
Theorem sfuConfigEffect_same_config_is_noop cfg audioEnabled dev w :
  sfuConfigValid (Some (currentSFUConfig w)) = true →
  sfuConfigEquals (Some (currentSFUConfig w)) cfg = true →
  let r := sfuConfigEffect env dev audioEnabled cfg w in
  r = (Normal tt, w)
  ∧ count_events isConnect (trace (snd r)) = count_events isConnect (trace w)
  ∧ count_events isDisconnect (trace (snd r))
    = count_events isDisconnect (trace w)
  ∧ isSwitchingFocus (snd r) = isSwitchingFocus w
  ∧ isInDoConnect (snd r) = isInDoConnect w.
Proof.
  intros Hv Heq. simpl.
  by rewrite (sfuConfigEffect_unchanged cfg audioEnabled dev w Hv Heq).
Qed.

(** C9: [sfuConfigEquals] compares the two fields; two undefined configs
    are equal and an undefined one differs from a defined one.  Between two
    valid configs the effect switches focus exactly when they differ by this
    test. *)
Theorem sfuConfigEquals_by_value :
  (∀ a b : SFUConfig,
     sfuConfigEquals (Some a) (Some b) = true ↔ url a = url b ∧ jwt a = jwt b)
  ∧ sfuConfigEquals None None = true
  ∧ (∀ a : SFUConfig,
       sfuConfigEquals (Some a) None = false
       ∧ sfuConfigEquals None (Some a) = false)
  ∧ (∀ cfg audioEnabled dev w,
       sfuConfigValid (Some (currentSFUConfig w)) = true →
       sfuConfigValid (Some cfg) = true →
       let r := sfuConfigEffect env dev audioEnabled (Some cfg) w in
       (sfuConfigEquals (Some (currentSFUConfig w)) (Some cfg) = true →
        r = (Normal tt, w))
       ∧ (sfuConfigEquals (Some (currentSFUConfig w)) (Some cfg) = false →
          count_events isDisconnect (trace (snd r))
          = S (count_events isDisconnect (trace w))
          ∧ isSwitchingFocus (snd r) = true)).
Proof.
  split; [apply OpenIDSFU_Facts.sfuConfigEquals_Some|].
  split; [done|]. split; [done|].
  intros cfg audioEnabled dev w Hv Hv'. simpl. split.
  - by apply sfuConfigEffect_unchanged.
  - intros Hne.
    destruct (sfuConfigEffect_switches cfg audioEnabled dev w Hv Hv' Hne)
      as (Hd & Hs & _).
    done.
Qed.

(** *** Further paths of an attempt *)

Lemma function_settles {S} (body : M S unit) s :
  fst (function_ body s) ≠ Returned.
Proof. unfold function_. by destruct (body s) as [[[]| |t] s']. Qed.

(** X4: whatever the room answers and whenever the component is unmounted,
    the effect on [sfuConfig] ends normally (no failure of an attempt or of
    a focus switch escapes it), records a copy of the supplied config as the
    current one, leaves [connState] alone, leaves no handle of its own in
    the bag and, when [isInDoConnect] was not set before, does not leave it
    set. *)
Theorem sfuConfigEffect_settles cfg audioEnabled dev w :
  let r := sfuConfigEffect env dev audioEnabled cfg w in
  fst r = Normal tt
  ∧ currentSFUConfig (snd r) = Object_assign cfg
  ∧ connState (snd r) = connState w
  ∧ abortHandlesBag (snd r) ⊆ abortHandlesBag w
  ∧ (isInDoConnect w = false → isInDoConnect (snd r) = false).
Proof.
  unfold sfuConfigEffect, alloc_AbortHandle. unfold_monad. simpl.
  destruct (sfuConfigValid cfg && sfuConfigValid (Some (currentSFUConfig w))
            && negb (sfuConfigEquals (Some (currentSFUConfig w)) cfg)).
  { unfold_attempt. run. all: done. }
  destruct (negb (sfuConfigValid (Some (currentSFUConfig w)))
            && sfuConfigValid cfg); [|done].
  simpl.
  match goal with
  | |- context [doConnect env ?c ?a ?d ?h ?w0] =>
      pose proof (doConnect_attempt_frame env c a d h w0) as Hframe;
      destruct (doConnect env c a d h w0) as [res w1] eqn:Hdo
  end.
  assert (res ≠ Returned) as Hres.
  { pose proof (function_settles (S:=World)) as Hf. unfold doConnect in Hdo.
    intros ->. eapply Hf. by rewrite Hdo. }
  destruct Hframe as ((Hb & Hc & Hs & He) & Hsw & Hin). simpl in *.
  assert (abortHandlesBag w1 ∖ {[fresh (dom (handles w))]}
          ⊆ abortHandlesBag w) as Hbag.
  { rewrite Hb. intros x [[->%elem_of_singleton|Hx]%elem_of_union Hne]%elem_of_difference.
    - exfalso. apply Hne. by apply elem_of_singleton.
    - done. }
  destruct res as [[]| |[e|v]]; simpl; [|done|..].
  - done.
  - by destruct (isElementCallError e).
  - done.
Qed.

(** X6: after the effect switched focus, whether or not the new connection
    could be made, the hook returns [ECSwitchingFocus] when the transport
    then reports a state other than [Connected], and [Connected] when it
    reports [Connected]: only that report ends the switching state. *)
Theorem focus_switch_ends_on_connected cfg audioEnabled dev state w :
  sfuConfigValid (Some (currentSFUConfig w)) = true →
  sfuConfigValid (Some cfg) = true →
  sfuConfigEquals (Some (currentSFUConfig w)) (Some cfg) = false →
  error w = None →
  isInDoConnect w = false →
  let w' := snd ((sfuConfigEffect env dev audioEnabled (Some cfg);;
                  onConnStateChanged state) w) in
  useECConnectionState_result w'
  = Normal (if bool_decide (state = Connected) then Connected
            else ECSwitchingFocus).
Proof.
  intros Hv Hv' Hne Herr Hin.
  unfold sfuConfigEffect, onConnStateChanged, useECConnectionState_result.
  unfold_monad. simpl.
  rewrite Hne, Hv, Hv'. simpl.
  unfold_attempt. run.
  all: destruct (bool_decide (state = Connected)) eqn:Hst; simpl;
    rewrite ?Herr, ?Hin; try done.
  all: by apply bool_decide_eq_true in Hst as ->.
Qed.

(** X3: on every path, one attempt asks the capture device for tracks at
    most once, calls [connect] at most once, publishes at most one
    microphone track and calls [disconnect] at most once. *)
Theorem doConnect_call_bounds cfg audioEnabled dev h w :
  let t := trace w in
  let t' := trace (snd (doConnect env cfg audioEnabled dev h w)) in
  (count_events isCreateTracks t' ≤ count_events isCreateTracks t + 1)%nat
  ∧ (count_events isConnect t' ≤ count_events isConnect t + 1)%nat
  ∧ (count_events isMicrophonePublish t'
     ≤ count_events isMicrophonePublish t + 1)%nat
  ∧ (count_events isDisconnect t' ≤ count_events isDisconnect t + 1)%nat.
Proof.
  simpl. repeat split.
  - assert (at_most isCreateTracks 1 (doConnect env cfg audioEnabled dev h))
      as H by (unfold doConnect; at_most_one). apply H.
  - assert (at_most isConnect 1 (doConnect env cfg audioEnabled dev h))
      as H by (unfold doConnect; at_most_one). apply H.
  - assert (at_most isMicrophonePublish 1
              (doConnect env cfg audioEnabled dev h))
      as H by (unfold doConnect; at_most_one). apply H.
  - assert (at_most isDisconnect 1 (doConnect env cfg audioEnabled dev h))
      as H by (unfold doConnect; at_most_one). apply H.
Qed.

(** The calls made on the room and the tracks, without the log. *)
Definition isCall (e : Event) : bool :=
  match e with
  | Log _ _ | SentryMessage _ => false
  | _ => true
  end.

Definition room_calls (t : list Event) : list Event := List.filter isCall t.

Lemma room_calls_app t1 t2 :
  room_calls (t1 ++ t2) = (room_calls t1 ++ room_calls t2)%list.
Proof. apply List.filter_app. Qed.

Ltac calls :=
  unfold room_calls; rewrite ?List.filter_app; simpl;
  rewrite <- ?app_assoc; simpl; try done.

(** The calls of an initial connect that nothing interrupts. *)
Definition connect_calls (cfg : SFUConfig) (audioEnabled : bool)
    (dev : option string) (mic : option LocalTrack) : list Event :=
  [CreateTracks dev]
  ++ (if audioEnabled then [] else option_list (Mute <$> mic))
  ++ [Connect (url cfg) (jwt cfg)
        (default 45000 (window_peerConnectionTimeout env))
        (default 45000 (window_websocketTimeout env))]
  ++ option_list ((λ t, PublishTrack (OfLocalTrack t) Microphone) <$> mic).

(** X1: an initial connect that nothing interrupts, and whose [mute()]
    does not fail, asks the capture device for tracks once, mutes the
    pre-created track before connecting when the call starts muted, connects
    with the config and then publishes that track as the microphone; the
    promise resolves.  When the publication of the microphone track is
    rejected, the track is stopped and the attempt rejects with that reason;
    the room is not disconnected. *)
Theorem doConnect_publishes_precreated_track
    cfg audioEnabled dev h w tracks :
  hasMicrophonePublication env AtStart = false →
  hasMicrophonePublication env AfterPreCreate = false →
  (∀ sp, unmountedDuring env sp = false) →
  aborted_at h w = false →
  createTracks env dev = Resolves tracks →
  mute_resolves audioEnabled dev →
  connect env (url cfg) (jwt cfg) = Resolves tt →
  let r := doConnect env cfg audioEnabled dev h w in
  let mic := head tracks in
  match mic ≫= (λ t, match publishTrack env (OfLocalTrack t) Microphone with
                     | Rejects e => Some (t, e)
                     | Resolves _ => None
                     end) with
  | None =>
      fst r = Normal tt
      ∧ room_calls (trace (snd r))
        = (room_calls (trace w) ++ connect_calls cfg audioEnabled dev mic)%list
  | Some (t, e) =>
      fst r = Threw e
      ∧ room_calls (trace (snd r))
        = (room_calls (trace w) ++ connect_calls cfg audioEnabled dev mic
           ++ [Stop t])%list
  end.
Proof.
  intros H1 H2 Hun Hna Hres Hm Hc. unfold connect_calls.
  unfold_attempt. rewrite H1, H2, !Hun, Hres, Hc.
  destruct tracks as [|t tracks]; simpl.
  - run. all: split; [done|calls].
  - run.
    all: try (rewrite (Hm eq_refl t tracks Hres) in *; discriminate).
    all: split; [done|calls].
Qed.

(** X2: when the component is unmounted while [connect] is pending, after
    a [mute()] that did not fail, and the connection and the publication
    then succeed, the attempt notices the abort afterwards: it disconnects
    once and resolves, whatever [disconnect] answers, and stores no
    error. *)
Theorem doConnect_cancelled_while_connecting
    cfg audioEnabled dev h w tracks :
  registered h w →
  aborted_at h w = false →
  hasMicrophonePublication env AtStart = false →
  hasMicrophonePublication env AfterPreCreate = false →
  unmountedDuring env AwaitCreateTracks = false →
  unmountedDuring env AwaitMute = false →
  unmountedDuring env AwaitConnect = true →
  createTracks env dev = Resolves tracks →
  mute_resolves audioEnabled dev →
  connect env (url cfg) (jwt cfg) = Resolves tt →
  (∀ t, head tracks = Some t →
        publishTrack env (OfLocalTrack t) Microphone = Resolves tt) →
  let r := doConnect env cfg audioEnabled dev h w in
  fst r = Normal tt
  ∧ room_calls (trace (snd r))
    = (room_calls (trace w) ++ connect_calls cfg audioEnabled dev (head tracks)
       ++ [Disconnect])%list
  ∧ error (snd r) = error w.
Proof.
  intros Hreg Hna H1 H2 Hu1 Hu2 Hu3 Hres Hm Hc Hp. unfold connect_calls.
  unfold_attempt. rewrite H1, H2, Hu1, Hu2, Hu3, Hres, Hc.
  destruct tracks as [|t tracks]; simpl.
  - run. all: split; [done|split; [calls|done]].
  - pose proof (Hp t eq_refl) as Hp'. run.
    all: try (rewrite (Hm eq_refl t tracks Hres) in *; discriminate).
    all: try congruence.
    all: split; [done|split; [calls|done]].
Qed.

(** X24: on a muted start, when [mute()] is rejected on the pre-created
    track, the attempt rejects with that reason before the re-check and
    before [connect]: the capture device was asked for the track and the
    track was muted, nothing else was called, and the track is not
    stopped. *)
Theorem doConnect_mute_rejected cfg dev h w t tracks e :
  hasMicrophonePublication env AtStart = false →
  unmountedDuring env AwaitCreateTracks = false →
  aborted_at h w = false →
  createTracks env dev = Resolves (t :: tracks) →
  mute env t = Rejects e →
  let r := doConnect env cfg false dev h w in
  fst r = Threw e
  ∧ room_calls (trace (snd r))
    = (room_calls (trace w) ++ [CreateTracks dev; Mute t])%list
  ∧ count_events (isStop t) (trace (snd r))
    = count_events (isStop t) (trace w).
Proof.
  intros H1 Hu1 Hna Hres Hmute.
  unfold_attempt. rewrite H1, Hu1, Hres. simpl.
  rewrite !aborted_at_set_trace, Hna. simpl. rewrite Hmute. run.
  all: split; [done|split; [calls|count]].
Qed.

(** X5: when the supplied config becomes undefined the effect calls nothing
    on the room and forgets the current config; a valid config that follows
    is then taken for an initial connect, not for a focus switch, and while
    the participant still has its microphone publication that attempt
    returns at once: the room is neither disconnected nor connected
    again. *)
Theorem sfuConfigEffect_config_lost_and_regained cfg audioEnabled dev w :
  sfuConfigValid (Some cfg) = true →
  hasMicrophonePublication env AtStart = true →
  let w1 := snd (sfuConfigEffect env dev audioEnabled None w) in
  let r := sfuConfigEffect env dev audioEnabled (Some cfg) w1 in
  trace w1 = trace w
  ∧ currentSFUConfig w1 = {| url := None; jwt := None |}
  ∧ fst r = Normal tt
  ∧ room_calls (trace (snd r)) = room_calls (trace w)
  ∧ currentSFUConfig (snd r) = cfg
  ∧ error (snd r) = error w.
Proof.
  intros Hv Hpub.
  unfold sfuConfigEffect, alloc_AbortHandle. unfold_monad. simpl.
  rewrite andb_false_r. simpl. rewrite Hv. simpl.
  unfold_attempt. rewrite Hpub. simpl.
  repeat split; try done.
  - calls. by rewrite app_nil_r.
  - by destruct cfg.
Qed.

End Attempts.

(** *** The rooms of useECConnectionState.test.tsx *)

Definition sfuConfig_test : SFUConfig :=
  {| url := Some "URL"; jwt := Some "JWT token" |}.

(** [mockRoom]: no publication, [createTracks] answers as given, [connect]
    settles as given; the component is unmounted at the given suspension
    points. *)
Definition mockRoom (createTracks_result : Settled (list LocalTrack))
    (connect_result : Settled unit) (unmounted : Suspension → bool) : Env :=
  {| hasMicrophonePublication := λ _, false;
     createTracks := λ _, createTracks_result;
     mute := λ _, Resolves tt;
     connect := λ _ _, connect_result;
     publishTrack := λ _ _, Resolves tt;
     disconnect := Resolves tt;
     videoTrackPublications := [];
     unmountedDuring := unmounted;
     window_peerConnectionTimeout := None;
     window_websocketTimeout := None |}.

Definition never : Suspension → bool := λ _, false.

Definition while_creating_tracks (sp : Suspension) : bool :=
  match sp with
  | AwaitCreateTracks => true
  | _ => false
  end.

(** The capture device refuses: [createTracks] rejects. *)
Definition permission_denied : Settled (list LocalTrack) :=
  Rejects (ThrownError (PlainError "NotAllowedError" "Permission denied")).

(** The run the component of the tests makes when its button is clicked:
    the first valid config arrives. *)
Definition click_connect (env : Env) (audioEnabled : bool) : World :=
  snd (sfuConfigEffect env (Some "default") audioEnabled (Some sfuConfig_test)
         (initial_World None None)).

(** C1, where the code departs from it: the component is unmounted while
    [createTracks] is pending and [createTracks] then rejects.  The abort
    check stands inside the [try] block, so the [catch] path skips it; with
    audio enabled no other check follows, and the attempt calls [connect]
    with its handle already aborted, noticing the abort only afterwards.
    When [createTracks] resolves instead (as in the repository's test), or
    when the call starts muted, the same unmount keeps [connect] from being
    called. *)
Theorem doConnect_connects_after_abort_on_failed_acquisition :
  trace (click_connect
           (mockRoom permission_denied (Resolves tt) while_creating_tracks)
           true)
  = [ Log LogInfo "Pre-creating microphone track";
      CreateTracks (Some "default");
      Log LogError "Failed to pre-create microphone track";
      Log LogInfo "[Lifecycle] Connecting & publishing";
      Log LogInfo "[Lifecycle] Connecting to livekit room URL ...";
      Connect (Some "URL") (Some "JWT token") 45000 45000;
      Log LogInfo "[Lifecycle] ... connected to livekit room";
      Log LogInfo "Publishing 0 precreated screenshare tracks";
      Log LogInfo "[Lifecycle] Signal Aborted: Connected but operation was cancelled. Force disconnect";
      Disconnect ]
  ∧ count_events isConnect
      (trace (click_connect
                (mockRoom (Resolves []) (Resolves tt) while_creating_tracks)
                true)) = 0%nat
  ∧ count_events isConnect
      (trace (click_connect
                (mockRoom (Resolves [7%nat]) (Resolves tt)
                   while_creating_tracks)
                true)) = 0%nat
  ∧ count_events isConnect
      (trace (click_connect
                (mockRoom permission_denied (Resolves tt) while_creating_tracks)
                false)) = 0%nat.
Proof. vm_compute. done. Qed.

(** A world in which the attempt's handle 0 is registered in the bag. *)
Definition world_with_handle : World :=
  set_bag (λ _, {[0%nat]})
    (set_handles (λ _, {[0%nat := new_AbortHandle]}) (initial_World None None)).

Lemma world_with_handle_registered : registered 0 world_with_handle.
Proof.
  split.
  - simpl. set_solver.
  - simpl. rewrite lookup_singleton_eq. by eexists.
Qed.

(** The repository's test "Should cancel about to open but not yet opened
    connection". *)
Example doConnect_cancelled_example :
  count_events isConnect
    (trace (snd (doConnect
                   (mockRoom (Resolves []) (Resolves tt) while_creating_tracks)
                   sfuConfig_test false (Some "default") 0
                   world_with_handle)))
  = count_events isConnect (trace world_with_handle).
Proof.
  apply (doConnect_cancelled_after_acquisition
           (mockRoom (Resolves []) (Resolves tt) while_creating_tracks)
           sfuConfig_test false (Some "default") 0%nat world_with_handle []).
  - exact world_with_handle_registered.
  - reflexivity.
  - left. reflexivity.
Qed.

(** The three capacity failures of the tests, and a 400. *)
Definition track_limit : JsError := ConnectionError "" InternalError (Some 503).
Definition participant_limit : JsError :=
  ConnectionError "" ServerUnreachable (Some 200).
Definition connection_limit : JsError := ConnectionError "" NotAllowed (Some 429).
Definition bad_request : JsError := ConnectionError "" InternalError (Some 400).

Lemma connect_failure_classification_witness :
  error (click_connect
           (mockRoom (Resolves []) (Rejects (ThrownError track_limit)) never)
           false)
  = Some InsufficientCapacityError.
Proof.
  apply (proj1 (proj2 (proj2 (connect_failure_classification
           (mockRoom (Resolves []) (Rejects (ThrownError track_limit)) never)
           sfuConfig_test None [] false (Some "default")
           (initial_World None None) (ThrownError track_limit) eq_refl))));
    first [reflexivity | intros _ t tracks _; reflexivity].
Defined.

Example connect_failure_examples :
  error (click_connect
           (mockRoom (Resolves []) (Rejects (ThrownError participant_limit))
              never) false)
  = Some InsufficientCapacityError
  ∧ error (click_connect
             (mockRoom (Resolves []) (Rejects (ThrownError connection_limit))
                never) false)
    = Some InsufficientCapacityError
  ∧ error (click_connect
             (mockRoom (Resolves []) (Rejects (ThrownError bad_request))
                never) false)
    = Some (UnknownCallError bad_request).
Proof. vm_compute. done. Qed.

(** A room with a camera and a screen share published. *)
Definition screen : MediaStreamTrack :=
  {| mst_id := "screen"; mst_generation := 0; enabled := false |}.

Definition camera : MediaStreamTrack :=
  {| mst_id := "camera"; mst_generation := 0; enabled := true |}.

Definition room_sharing_screen (publish : Settled unit) : Env :=
  {| hasMicrophonePublication := λ _, true;
     createTracks := λ _, Resolves [];
     mute := λ _, Resolves tt;
     connect := λ _ _, Resolves tt;
     publishTrack := λ _ _, publish;
     disconnect := Resolves tt;
     videoTrackPublications :=
       [ {| track := Some camera; source := Camera |};
         {| track := Some screen; source := ScreenShare |};
         {| track := None; source := ScreenShare |} ];
     unmountedDuring := never;
     window_peerConnectionTimeout := None;
     window_websocketTimeout := None |}.

Definition connected_world : World :=
  set_connState Connected (initial_World (Some sfuConfig_test) (Some Connected)).

Definition sfuConfig_other : SFUConfig :=
  {| url := Some "URL2"; jwt := Some "JWT token 2" |}.

(** C2 as stated fails: when the config changes while connected and the
    new [connect] is refused with status 400, [connectAndPublish] passes the
    error on, but the controller only logs it: nothing is stored for the
    error boundary and the hook keeps returning the switching state.  The
    same holds for a capacity failure during the switch; and on an initial
    connect a thrown value that is no [Error] is stored neither. *)
Lemma connect_failure_not_surfaced :
  fst (connectAndPublish
         (mockRoom (Resolves []) (Rejects (ThrownError bad_request)) never)
         sfuConfig_other None [] connected_world)
  = Threw (ThrownError bad_request)
  ∧ error (snd (sfuConfigEffect
                  (mockRoom (Resolves []) (Rejects (ThrownError bad_request))
                     never)
                  (Some "default") true (Some sfuConfig_other)
                  connected_world))
    = None
  ∧ useECConnectionState_result
      (snd (sfuConfigEffect
              (mockRoom (Resolves []) (Rejects (ThrownError bad_request))
                 never)
              (Some "default") true (Some sfuConfig_other) connected_world))
    = Normal ECSwitchingFocus
  ∧ last (trace (snd (sfuConfigEffect
                        (mockRoom (Resolves [])
                           (Rejects (ThrownError bad_request)) never)
                        (Some "default") true (Some sfuConfig_other)
                        connected_world)))
    = Some (Log LogError "Failed to switch focus")
  ∧ error (snd (sfuConfigEffect
                  (mockRoom (Resolves []) (Rejects (ThrownError track_limit))
                     never)
                  (Some "default") true (Some sfuConfig_other)
                  connected_world))
    = None
  ∧ error (click_connect
             (mockRoom (Resolves []) (Rejects (ThrownValue "boom")) never)
             false)
    = None.
Proof. vm_compute. done. Qed.

Lemma doFocusSwitch_carries_screenshare_witness :
  fst (doFocusSwitch (room_sharing_screen (Rejects (ThrownValue "refused")))
         sfuConfig_other connected_world) = Normal tt
  ∧ trace (snd (doFocusSwitch
                  (room_sharing_screen (Rejects (ThrownValue "refused")))
                  sfuConfig_other connected_world))
    = [ Disconnect;
        Log LogInfo "[Lifecycle] Connecting to livekit room URL2 ...";
        Connect (Some "URL2") (Some "JWT token 2") 45000 45000;
        Log LogInfo "[Lifecycle] ... connected to livekit room";
        Log LogInfo "Publishing 1 precreated screenshare tracks";
        PublishTrack
          (OfMediaStreamTrack
             {| mst_id := "screen"; mst_generation := 1; enabled := true |})
          ScreenShare;
        Log LogError "Failed to publish screenshare track" ]
  ∧ isSwitchingFocus
      (snd (doFocusSwitch
              (room_sharing_screen (Rejects (ThrownValue "refused")))
              sfuConfig_other connected_world)) = true.
Proof.
  apply (proj2 (proj2 (doFocusSwitch_carries_screenshare
           (room_sharing_screen (Rejects (ThrownValue "refused")))
           sfuConfig_other connected_world)));
    reflexivity.
Defined.

Lemma sfuConfigEffect_same_config_witness :
  sfuConfigEffect (room_sharing_screen (Resolves tt)) (Some "default") true
    (Some sfuConfig_test) connected_world
  = (Normal tt, connected_world).
Proof.
  apply (proj1 (sfuConfigEffect_same_config_is_noop
           (room_sharing_screen (Resolves tt)) (Some sfuConfig_test) true
           (Some "default") connected_world eq_refl eq_refl)).
Defined.

(** A room in which the microphone publication appears while the track is
    pre-created. *)
Definition room_republished : Env :=
  {| hasMicrophonePublication := λ site,
       match site with AtStart => false | AfterPreCreate => true end;
     createTracks := λ _, Resolves [7%nat];
     mute := λ _, Resolves tt;
     connect := λ _ _, Resolves tt;
     publishTrack := λ _ _, Resolves tt;
     disconnect := Resolves tt;
     videoTrackPublications := [];
     unmountedDuring := never;
     window_peerConnectionTimeout := None;
     window_websocketTimeout := None |}.

Lemma doConnect_microphone_already_published_witness :
  (fst (doConnect (room_sharing_screen (Resolves tt)) sfuConfig_test true
          (Some "default") 0 world_with_handle) = Normal tt
   ∧ count_events isConnect
       (trace (snd (doConnect (room_sharing_screen (Resolves tt))
                      sfuConfig_test true (Some "default") 0
                      world_with_handle)))
     = count_events isConnect (trace world_with_handle)
   ∧ count_events isCreateTracks
       (trace (snd (doConnect (room_sharing_screen (Resolves tt))
                      sfuConfig_test true (Some "default") 0
                      world_with_handle)))
     = count_events isCreateTracks (trace world_with_handle))
  ∧ (fst (doConnect room_republished sfuConfig_test false (Some "default") 0
            world_with_handle) = Normal tt
     ∧ count_events isConnect
         (trace (snd (doConnect room_republished sfuConfig_test false
                        (Some "default") 0 world_with_handle)))
       = count_events isConnect (trace world_with_handle)
     ∧ count_events (isStop 7%nat)
         (trace (snd (doConnect room_republished sfuConfig_test false
                        (Some "default") 0 world_with_handle)))
       = S (count_events (isStop 7%nat) (trace world_with_handle))).
Proof.
  split.
  - destruct (doConnect_microphone_already_published
                (room_sharing_screen (Resolves tt)) sfuConfig_test true
                (Some "default") 0%nat world_with_handle
                (or_introl eq_refl)) as (Hcalls & Hstart & _).
    destruct (Hstart eq_refl) as [Hres Hcreate].
    split; [exact Hres|]. split; [exact Hcalls | exact Hcreate].
  - destruct (doConnect_microphone_already_published
                room_republished sfuConfig_test false
                (Some "default") 0%nat world_with_handle
                (or_intror eq_refl)) as (Hcalls & _ & Hrecheck).
    destruct Hrecheck as [Hres Hstop].
    { intros _ t tracks _. reflexivity. }
    split; [exact Hres|]. split; [exact Hcalls|].
    exact (Hstop eq_refl 7%nat [] eq_refl).
Defined.


(** A room whose transport answers, with one microphone to capture. *)
Definition room_with_microphone (muted publish : Settled unit)
    (unmounted : Suspension → bool) : Env :=
  {| hasMicrophonePublication := λ _, false;
     createTracks := λ _, Resolves [7%nat];
     mute := λ _, muted;
     connect := λ _ _, Resolves tt;
     publishTrack := λ _ _, publish;
     disconnect := Rejects (ThrownValue "gone");
     videoTrackPublications := [];
     unmountedDuring := unmounted;
     window_peerConnectionTimeout := None;
     window_websocketTimeout := None |}.

Definition while_connecting (sp : Suspension) : bool :=
  match sp with
  | AwaitConnect => true
  | _ => false
  end.

(** The publication of the microphone track is refused. *)
Definition room_refusing_publication : Env :=
  room_with_microphone (Resolves tt) (Rejects (ThrownValue "refused")) never.

(** The component is unmounted while [connect] is pending. *)
Definition room_left_while_connecting : Env :=
  room_with_microphone (Resolves tt) (Resolves tt) while_connecting.

(** The track cannot be muted. *)
Definition room_refusing_mute : Env :=
  room_with_microphone (Rejects (ThrownValue "not muted")) (Resolves tt) never.

Lemma doConnect_publishes_precreated_track_witness :
  fst (doConnect room_refusing_publication sfuConfig_test false
         (Some "default") 0 world_with_handle)
  = Threw (ThrownValue "refused")
  ∧ room_calls
      (trace (snd (doConnect room_refusing_publication sfuConfig_test false
                     (Some "default") 0 world_with_handle)))
    = [ CreateTracks (Some "default"); Mute 7%nat;
        Connect (Some "URL") (Some "JWT token") 45000 45000;
        PublishTrack (OfLocalTrack 7%nat) Microphone; Stop 7%nat ].
Proof.
  apply (doConnect_publishes_precreated_track room_refusing_publication
           sfuConfig_test false (Some "default") 0%nat world_with_handle
           [7%nat]); try reflexivity.
  intros _ t tracks _. reflexivity.
Defined.

Lemma doConnect_cancelled_while_connecting_witness :
  fst (doConnect room_left_while_connecting sfuConfig_test false
         (Some "default") 0 world_with_handle)
  = Normal tt
  ∧ room_calls
      (trace (snd (doConnect room_left_while_connecting sfuConfig_test false
                     (Some "default") 0 world_with_handle)))
    = [ CreateTracks (Some "default"); Mute 7%nat;
        Connect (Some "URL") (Some "JWT token") 45000 45000;
        PublishTrack (OfLocalTrack 7%nat) Microphone; Disconnect ]
  ∧ error (snd (doConnect room_left_while_connecting sfuConfig_test false
                  (Some "default") 0 world_with_handle))
    = None.
Proof.
  apply (doConnect_cancelled_while_connecting room_left_while_connecting
           sfuConfig_test false (Some "default") 0%nat world_with_handle
           [7%nat]); try reflexivity.
  - exact world_with_handle_registered.
  - intros _ t tracks _. reflexivity.
Defined.

Lemma doConnect_mute_rejected_witness :
  fst (doConnect room_refusing_mute sfuConfig_test false (Some "default") 0
         world_with_handle)
  = Threw (ThrownValue "not muted")
  ∧ room_calls
      (trace (snd (doConnect room_refusing_mute sfuConfig_test false
                     (Some "default") 0 world_with_handle)))
    = [CreateTracks (Some "default"); Mute 7%nat]
  ∧ count_events (isStop 7%nat)
      (trace (snd (doConnect room_refusing_mute sfuConfig_test false
                     (Some "default") 0 world_with_handle)))
    = 0%nat.
Proof.
  apply (doConnect_mute_rejected room_refusing_mute sfuConfig_test
           (Some "default") 0%nat world_with_handle 7%nat []
           (ThrownValue "not muted")); reflexivity.
Defined.

Lemma sfuConfigEffect_config_lost_and_regained_witness :
  room_calls
    (trace (snd (sfuConfigEffect (room_sharing_screen (Resolves tt))
                   (Some "default") true (Some sfuConfig_other)
                   (snd (sfuConfigEffect (room_sharing_screen (Resolves tt))
                           (Some "default") true None connected_world)))))
  = room_calls (trace connected_world).
Proof.
  apply (sfuConfigEffect_config_lost_and_regained
           (room_sharing_screen (Resolves tt)) sfuConfig_other true
           (Some "default") connected_world eq_refl eq_refl).
Defined.

Lemma focus_switch_ends_on_connected_witness :
  useECConnectionState_result
    (snd ((sfuConfigEffect
             (mockRoom (Resolves []) (Rejects (ThrownError bad_request)) never)
             (Some "default") true (Some sfuConfig_other);;
           onConnStateChanged Disconnected) connected_world))
  = Normal ECSwitchingFocus.
Proof.
  apply (focus_switch_ends_on_connected
           (mockRoom (Resolves []) (Rejects (ThrownError bad_request)) never)
           sfuConfig_other true (Some "default") Disconnected connected_world);
    reflexivity.
Defined.

End ECConnectionState_Facts.

(** ** livekit/useLivekit.ts: the mute synchronisation *)

Module Livekit_Facts.
Import Livekit.

(** The calls that ask the device to change state. *)
Definition isSetEnabled (type : MuteDevice) (e : Event) : bool :=
  match type, e with
  | Microphone, SetMicrophoneEnabled _ => true
  | Camera, SetCameraEnabled _ => true
  | _, _ => false
  end.

Definition attempts (type : MuteDevice) (t : list Event) : nat :=
  length (List.filter (isSetEnabled type) t).

Lemma attempts_app type t1 t2 :
  attempts type (t1 ++ t2) = (attempts type t1 + attempts type t2)%nat.
Proof. unfold attempts. by rewrite List.filter_app, length_app. Qed.

Ltac tally :=
  unfold attempts in *; simpl in *;
  rewrite ?List.filter_app, ?length_app in *; simpl in *; lia.

Ltac unfold_sync :=
  unfold setEnabled, log, emit; unfold_monad.

Section Sync.
Variable env : Env.

(** The loop always ends normally, after at most [11 - iterCount] calls to
    the device. *)
Lemma syncMuteState_bounded iterCount type w :
  fst (syncMuteState env iterCount type w) = Normal tt
  ∧ (attempts type (trace (snd (syncMuteState env iterCount type w)))
     ≤ attempts type (trace w) + (11 - iterCount))%nat.
Proof.
  remember (11 - iterCount)%nat as n eqn:Hn.
  revert iterCount w Hn. induction n as [|n IH]; intros iterCount w Hn.
  - simp syncMuteState.
    destruct (decide (10 < iterCount)%nat) as [Hgt|Hle]; [|lia].
    simpl. split; [done|]. destruct type; tally.
  - simp syncMuteState.
    destruct (decide (10 < iterCount)%nat) as [Hgt|Hle]; [lia|].
    simpl. unfold_sync. simpl.
    destruct (negb (bool_decide (devEnabled type w = btnEnabled type w))
              && negb (updating type w)); simpl; [|split; [done|lia]].
    destruct type; simpl;
    repeat (match goal with
      | |- context [buttonAfter env ?t ?i] => destruct (buttonAfter env t i)
      | |- context [reply env ?t ?i ?b] => destruct (reply env t i b)
      | |- context [bool_decide (name_of ?t = ?x)] =>
          destruct (bool_decide (name_of t = x))
      | |- context [syncMuteState env (iterCount + 1) ?t ?W] =>
          let H := fresh "Hrec" in
          pose proof (IH (iterCount + 1)%nat W ltac:(lia)) as H;
          destruct (syncMuteState env (iterCount + 1) t W) as [? ?];
          simpl in H; destruct H as [-> H]
      end; simpl).
    all: split; [done|tally].
Qed.

(** A device that accepts every call and never reports the requested
    state, with the button left alone: from [iterCount] every remaining
    iteration calls the device, and the loop ends on the give-up log. *)
Lemma syncMuteState_stubborn iterCount type w :
  (∀ i b, reply env type i b = Publication) →
  (∀ i b, reportedAfter env type i b = negb b) →
  (∀ i, buttonAfter env type i = None) →
  updating type w = false →
  devEnabled type w ≠ btnEnabled type w →
  (iterCount ≤ 11)%nat →
  let r := syncMuteState env iterCount type w in
  attempts type (trace (snd r))
  = (attempts type (trace w) + (11 - iterCount))%nat
  ∧ last (trace (snd r))
    = Some (Log LogError "Stop trying to sync the input device with current mute state after 10 failed tries").
Proof.
  intros Hreply Hrep Hbtn. simpl.
  remember (11 - iterCount)%nat as n eqn:Hn.
  revert iterCount w Hn. induction n as [|n IH]; intros iterCount w Hn Hup Hne Hle.
  - simp syncMuteState.
    destruct (decide (10 < iterCount)%nat) as [Hgt|Hngt]; [|lia].
    simpl. split; [destruct type; tally|]. by rewrite last_snoc.
  - simp syncMuteState.
    destruct (decide (10 < iterCount)%nat) as [Hgt|Hngt]; [lia|].
    simpl. unfold_sync. simpl.
    rewrite Hup. rewrite bool_decide_eq_false_2 by done. simpl.
    rewrite Hbtn, Hreply, Hrep. simpl.
    match goal with
    | |- context [syncMuteState env (iterCount + 1) type ?W] =>
        pose proof (IH (iterCount + 1)%nat W ltac:(lia)) as Hrec;
        pose proof (syncMuteState_bounded (iterCount + 1) type W) as [Hok _];
        destruct (syncMuteState env (iterCount + 1) type W) as [c w'];
        simpl in Hok; subst c
    end.
    simpl. destruct Hrec as [Hatt Hlast].
    + by destruct type, w.
    + destruct type, w; simpl in *; by destruct (buttonEnabled_audio0),
        (buttonEnabled_video0).
    + lia.
    + simpl in Hatt, Hlast. split; [|done]. rewrite Hatt.
      destruct type; tally.
Qed.

(** *** Further behaviour of the loop *)

(** The other kind of device. *)
Definition other (type : MuteDevice) : MuteDevice :=
  match type with Microphone => Camera | Camera => Microphone end.

Lemma syncMuteState_idle iterCount type w :
  (iterCount ≤ 10)%nat →
  devEnabled type w = btnEnabled type w ∨ updating type w = true →
  syncMuteState env iterCount type w = (Normal tt, w).
Proof.
  intros Hle Hsync. simp syncMuteState.
  destruct (decide (10 < iterCount)%nat) as [Hgt|Hngt]; [lia|].
  simpl. unfold_sync. simpl.
  destruct Hsync as [-> | ->].
  - by rewrite bool_decide_eq_true_2.
  - by rewrite andb_false_r.
Qed.

(** X8: below the retry limit, [syncMuteState] does nothing at all when the
    device already is in the state the button asks for, or while a call on
    the device is still pending. *)
Theorem syncMuteState_in_sync_is_noop iterCount type w :
  (iterCount ≤ 10)%nat →
  devEnabled type w = btnEnabled type w ∨ updating type w = true →
  syncMuteState env iterCount type w = (Normal tt, w)
  ∧ attempts type (trace (snd (syncMuteState env iterCount type w)))
    = attempts type (trace w).
Proof.
  intros Hle Hsync. by rewrite syncMuteState_idle.
Qed.

(** X10: when the device call fails with [NotAllowedError] the loop does
    not retry: after that one call it clears the pending flag and sets the
    caller's mute state to disabled. *)
Theorem syncMuteState_permission_denied iterCount type w e :
  (iterCount ≤ 10)%nat →
  updating type w = false →
  devEnabled type w ≠ btnEnabled type w →
  reply env type iterCount (btnEnabled type w) = Failure e →
  name_of e = Some "NotAllowedError" →
  let r := syncMuteState env iterCount type w in
  fst r = Normal tt
  ∧ attempts type (trace (snd r)) = S (attempts type (trace w))
  ∧ last (trace (snd r)) = Some (MuteStates_setEnabled type false)
  ∧ updating type (snd r) = false.
Proof.
  intros Hle Hup Hne Hreply Hname. simp syncMuteState.
  destruct (decide (10 < iterCount)%nat) as [Hgt|Hngt]; [lia|].
  simpl. unfold_sync. simpl.
  rewrite Hup. rewrite bool_decide_eq_false_2 by done. simpl.
  destruct type; simpl in *; rewrite Hreply.
  all: match goal with
       | |- context [buttonAfter env ?t ?i] => destruct (buttonAfter env t i)
       end; simpl; rewrite Hname; simpl.
  all: repeat split; [tally | by rewrite last_snoc].
Qed.

(** X11: when the device call is rejected with another error, the pending
    flag is still set when the retry runs, so the retry calls nothing: the
    loop ends after that one call, and as long as the flag stays set no
    later synchronisation of this kind calls the device. *)
Theorem syncMuteState_rejected_call_blocks_retries iterCount type w e :
  (iterCount ≤ 10)%nat →
  updating type w = false →
  devEnabled type w ≠ btnEnabled type w →
  reply env type iterCount (btnEnabled type w) = Failure e →
  name_of e ≠ Some "NotAllowedError" →
  let r := syncMuteState env iterCount type w in
  fst r = Normal tt
  ∧ attempts type (trace (snd r)) = S (attempts type (trace w))
  ∧ updating type (snd r) = true
  ∧ ∀ i, (i ≤ 10)%nat → syncMuteState env i type (snd r) = (Normal tt, snd r).
Proof.
  intros Hle Hup Hne Hreply Hname. simp syncMuteState.
  destruct (decide (10 < iterCount)%nat) as [Hgt|Hngt]; [lia|].
  simpl. unfold_sync. simpl.
  rewrite Hup. rewrite bool_decide_eq_false_2 by done. simpl.
  assert (∀ W, updating type W = true →
          let r := syncMuteState env (iterCount + 1) type W in
          fst r = Normal tt
          ∧ attempts type (trace (snd r)) = attempts type (trace W)
          ∧ updating type (snd r) = true) as Hretry.
  { intros W HW. simp syncMuteState.
    destruct (decide (10 < iterCount + 1)%nat) as [Hgt'|Hngt']; simpl.
    - repeat split; [destruct type; tally | by destruct type, W].
    - unfold_sync. simpl. rewrite HW, andb_false_r. done. }
  assert (∀ b W, updating type (set_btnEnabled type b W) = updating type W)
    as Hset by (by destruct type).
  destruct type; simpl in *; rewrite Hreply.
  all: match goal with
       | |- context [buttonAfter env ?t ?i] => destruct (buttonAfter env t i)
       end; simpl; rewrite bool_decide_eq_false_2 by done; simpl.
  all: match goal with
       | |- context [syncMuteState env ?i ?t ?W] =>
           destruct (Hretry W) as (Hok & Hatt & Hupd); [done|];
           destruct (syncMuteState env i t W) as [c w'];
           simpl in *; subst c
       end.
  all: repeat split; [tally | done |].
  all: intros i Hi; apply syncMuteState_idle; auto.
Qed.

(** X9: a device that takes up the requested state at once is called
    exactly once: the loop makes the call, sleeps 100 ms, finds the states
    equal and stops, with the pending flag cleared. *)
Theorem syncMuteState_converges_in_one_call iterCount type w :
  (iterCount < 10)%nat →
  updating type w = false →
  devEnabled type w ≠ btnEnabled type w →
  reply env type iterCount (btnEnabled type w) = Publication →
  reportedAfter env type iterCount (btnEnabled type w) = btnEnabled type w →
  buttonAfter env type iterCount = None →
  let r := syncMuteState env iterCount type w in
  fst r = Normal tt
  ∧ trace (snd r)
    = (trace w ++ [match type with
                   | Microphone => SetMicrophoneEnabled (btnEnabled type w)
                   | Camera => SetCameraEnabled (btnEnabled type w)
                   end; SetTimeout 100])%list
  ∧ devEnabled type (snd r) = btnEnabled type w
  ∧ btnEnabled type (snd r) = btnEnabled type w
  ∧ updating type (snd r) = false.
Proof.
  intros Hlt Hup Hne Hreply Hrep Hbtn. simp syncMuteState.
  destruct (decide (10 < iterCount)%nat) as [Hgt|Hngt]; [lia|].
  simpl. unfold_sync. simpl.
  rewrite Hup. rewrite bool_decide_eq_false_2 by done. simpl.
  destruct type; simpl in *; rewrite Hreply, Hrep, Hbtn; simpl.
  all: match goal with
  | |- context [syncMuteState env ?i ?t ?W] =>
      rewrite (syncMuteState_idle i t W);
        [|lia|by left]
  end.
  all: simpl; by rewrite <- app_assoc.
Qed.

(** The events that concern a kind of device: the calls on it and the
    writes to its mute state. *)
Definition concerns (type : MuteDevice) (e : Event) : bool :=
  match e with
  | SetMicrophoneEnabled _ => bool_decide (type = Microphone)
  | SetCameraEnabled _ => bool_decide (type = Camera)
  | MuteStates_setEnabled t _ => bool_decide (t = type)
  | _ => false
  end.

Lemma syncMuteState_frame iterCount type w :
  let w' := snd (syncMuteState env iterCount type w) in
  devEnabled (other type) w' = devEnabled (other type) w
  ∧ btnEnabled (other type) w' = btnEnabled (other type) w
  ∧ updating (other type) w' = updating (other type) w
  ∧ List.filter (concerns (other type)) (trace w')
    = List.filter (concerns (other type)) (trace w).
Proof.
  simpl.
  remember (11 - iterCount)%nat as n eqn:Hn.
  revert iterCount w Hn. induction n as [|n IH]; intros iterCount w Hn.
  - simp syncMuteState.
    destruct (decide (10 < iterCount)%nat) as [Hgt|Hle]; [|lia].
    simpl. rewrite List.filter_app. simpl. rewrite app_nil_r. by destruct type.
  - simp syncMuteState.
    destruct (decide (10 < iterCount)%nat) as [Hgt|Hle]; [lia|].
    simpl. unfold_sync. simpl.
    destruct (negb (bool_decide (devEnabled type w = btnEnabled type w))
              && negb (updating type w)); simpl; [|done].
    destruct type; simpl;
    repeat (match goal with
      | |- context [buttonAfter env ?t ?i] => destruct (buttonAfter env t i)
      | |- context [reply env ?t ?i ?b] => destruct (reply env t i b)
      | |- context [bool_decide (name_of ?t = ?x)] =>
          destruct (bool_decide (name_of t = x))
      | |- context [syncMuteState env (iterCount + 1) ?t ?W] =>
          let H := fresh "Hrec" in
          let Hok := fresh "Hok" in
          pose proof (IH (iterCount + 1)%nat W ltac:(lia)) as H;
          pose proof (syncMuteState_bounded (iterCount + 1) t W)
            as [Hok _];
          destruct (syncMuteState env (iterCount + 1) t W) as [? ?];
          simpl in H, Hok; rewrite Hok; simpl;
          destruct H as (-> & -> & -> & ->)
      end; simpl).
    all: rewrite ?List.filter_app; simpl; rewrite ?app_nil_r; done.
Qed.

(** X12: synchronising one kind of device never touches the other: its
    device state, button state and pending flag stay as they were, and no
    call or mute-state write for it is made. *)
Theorem syncMuteState_leaves_other_device iterCount type w :
  let w' := snd (syncMuteState env iterCount type w) in
  devEnabled (other type) w' = devEnabled (other type) w
  ∧ btnEnabled (other type) w' = btnEnabled (other type) w
  ∧ updating (other type) w' = updating (other type) w
  ∧ List.filter (concerns (other type)) (trace w')
    = List.filter (concerns (other type)) (trace w).
Proof. apply syncMuteState_frame. Qed.

(** X13: the effect body, which synchronises the microphone and then the
    camera, always ends, having called each device at most 11 times. *)
Theorem syncMuteStates_bounded w :
  let r := syncMuteStates env w in
  fst r = Normal tt
  ∧ (attempts Microphone (trace (snd r))
     ≤ attempts Microphone (trace w) + 11)%nat
  ∧ (attempts Camera (trace (snd r)) ≤ attempts Camera (trace w) + 11)%nat.
Proof.
  unfold syncMuteStates. unfold_monad.
  pose proof (syncMuteState_bounded 0 Microphone w) as [Hok Hmic].
  pose proof (syncMuteState_frame 0 Microphone w)
    as (_ & _ & _ & Hcam).
  destruct (syncMuteState env 0 Microphone w) as [c w1]. simpl in *. subst c.
  pose proof (syncMuteState_bounded 0 Camera w1) as [Hok' Hcam'].
  pose proof (syncMuteState_frame 0 Camera w1)
    as (_ & _ & _ & Hmic').
  destruct (syncMuteState env 0 Camera w1) as [c w2]. simpl in *. subst c.
  split; [done|].
  assert (∀ type t, attempts type t
            = length (List.filter (isSetEnabled type)
                        (List.filter (concerns type) t))) as Hatt.
  { intros type t. unfold attempts. induction t as [|e t IH]; [done|].
    simpl. destruct type, e; simpl; try done; rewrite ?IH; try done.
    all: destruct (bool_decide _); simpl; by rewrite ?IH. }
  rewrite !Hatt in *. rewrite Hmic', <- Hcam. lia.
Qed.

End Sync.

(** The microphone button asks for audio, the device stays off. *)
Definition world_unmuting : World :=
  {| isMicrophoneEnabled := false; isCameraEnabled := false;
     buttonEnabled_audio := true; buttonEnabled_video := false;
     audioMuteUpdating := false; videoMuteUpdating := false; trace := [] |}.

(** It accepts every call and never turns on. *)
Definition stubborn_device : Env :=
  {| reply := λ _ _ _, Publication;
     reportedAfter := λ _ _ requested, negb requested;
     buttonAfter := λ _ _, None |}.

(** It answers every call without a publication. *)
Definition unpublishing_device : Env :=
  {| reply := λ _ _ _, NoPublication;
     reportedAfter := λ _ _ requested, negb requested;
     buttonAfter := λ _ _, None |}.

(** C8, where the code departs from it: the guard is [iterCount > 10] and
    the first call has [iterCount] 0, so a device that never converges is
    called 11 times (with [iterCount] 0 to 10) before the loop logs that it
    stops "after 10 failed tries".  The loop does end. *)
Theorem syncMuteState_eleven_attempts :
  trace (snd (syncMuteState stubborn_device 0 Microphone world_unmuting))
  = (mjoin (replicate 11 [SetMicrophoneEnabled true; SetTimeout 100])
     ++ [Log LogError "Stop trying to sync the input device with current mute state after 10 failed tries"])%list
  ∧ attempts Microphone
      (trace (snd (syncMuteState stubborn_device 0 Microphone world_unmuting)))
    = 11%nat
  ∧ attempts Microphone
      (trace (snd (syncMuteState unpublishing_device 0 Microphone
                     world_unmuting)))
    = 11%nat
  ∧ fst (syncMuteState stubborn_device 0 Microphone world_unmuting)
    = Normal tt.
Proof. vm_compute. done. Qed.

Example syncMuteState_stubborn_example :
  attempts Microphone
    (trace (snd (syncMuteState stubborn_device 0 Microphone world_unmuting)))
  = (attempts Microphone (trace world_unmuting) + (11 - 0))%nat.
Proof.
  apply (syncMuteState_stubborn stubborn_device 0 Microphone world_unmuting);
    try done. lia.
Qed.

(** It does what it is asked, at once. *)
Definition obedient_device : Env :=
  {| reply := λ _ _ _, Publication;
     reportedAfter := λ _ _ requested, requested;
     buttonAfter := λ _ _, None |}.

(** The browser refuses the capture. *)
Definition forbidden_device : Env :=
  {| reply := λ _ _ _,
       Failure (ThrownError (PlainError "NotAllowedError" "Permission denied"));
     reportedAfter := λ _ _ requested, negb requested;
     buttonAfter := λ _ _, None |}.

(** The device cannot be read. *)
Definition unreadable_device : Env :=
  {| reply := λ _ _ _,
       Failure (ThrownError (PlainError "NotReadableError" "Could not start audio source"));
     reportedAfter := λ _ _ requested, negb requested;
     buttonAfter := λ _ _, None |}.

Lemma syncMuteState_in_sync_witness :
  syncMuteState stubborn_device 0 Camera world_unmuting
  = (Normal tt, world_unmuting)
  ∧ attempts Camera
      (trace (snd (syncMuteState stubborn_device 0 Camera world_unmuting)))
    = attempts Camera (trace world_unmuting).
Proof.
  apply (syncMuteState_in_sync_is_noop stubborn_device 0 Camera world_unmuting).
  - lia.
  - left. reflexivity.
Defined.

Lemma syncMuteState_converges_witness :
  fst (syncMuteState obedient_device 0 Microphone world_unmuting) = Normal tt
  ∧ trace (snd (syncMuteState obedient_device 0 Microphone world_unmuting))
    = [SetMicrophoneEnabled true; SetTimeout 100]
  ∧ devEnabled Microphone
      (snd (syncMuteState obedient_device 0 Microphone world_unmuting)) = true
  ∧ btnEnabled Microphone
      (snd (syncMuteState obedient_device 0 Microphone world_unmuting)) = true
  ∧ updating Microphone
      (snd (syncMuteState obedient_device 0 Microphone world_unmuting)) = false.
Proof.
  apply (syncMuteState_converges_in_one_call obedient_device 0 Microphone
           world_unmuting); try reflexivity.
  - lia.
  - discriminate.
Defined.

Lemma syncMuteState_permission_denied_witness :
  fst (syncMuteState forbidden_device 0 Microphone world_unmuting) = Normal tt
  ∧ attempts Microphone
      (trace (snd (syncMuteState forbidden_device 0 Microphone world_unmuting)))
    = 1%nat
  ∧ last (trace (snd (syncMuteState forbidden_device 0 Microphone
                        world_unmuting)))
    = Some (MuteStates_setEnabled Microphone false)
  ∧ updating Microphone
      (snd (syncMuteState forbidden_device 0 Microphone world_unmuting))
    = false.
Proof.
  apply (syncMuteState_permission_denied forbidden_device 0 Microphone
           world_unmuting
           (ThrownError (PlainError "NotAllowedError" "Permission denied")));
    try reflexivity.
  - lia.
  - discriminate.
Defined.

Lemma syncMuteState_rejected_call_witness :
  attempts Microphone
    (trace (snd (syncMuteState unreadable_device 0 Microphone world_unmuting)))
  = 1%nat
  ∧ updating Microphone
      (snd (syncMuteState unreadable_device 0 Microphone world_unmuting))
    = true.
Proof.
  destruct (syncMuteState_rejected_call_blocks_retries unreadable_device 0
              Microphone world_unmuting
              (ThrownError (PlainError "NotReadableError"
                              "Could not start audio source")))
    as (_ & Hatt & Hup & _); try reflexivity.
  - lia.
  - discriminate.
  - discriminate.
  - split; [exact Hatt | exact Hup].
Defined.

End Livekit_Facts.

(** ** rtcSessionHelpers.ts: entering and leaving the session *)

Module RtcSessionLifecycle_Facts.
Import RtcSessionHelpers RtcSessionHelpers_Facts RtcSessionLifecycle.

(** The calls on the session and on the widget, without the log and the
    analytics. *)
Definition isSessionCall (e : Event) : bool :=
  match e with
  | JoinRoomSession _ _ _ | LeaveRoomSession | SetAlwaysOnScreen _ | Send _
  | TransportStop | SetExternalError _ => true
  | _ => false
  end.

Definition session_calls (t : list Event) : list Event :=
  List.filter isSessionCall t.

Lemma session_calls_logs (logs : list LogEntry) :
  session_calls (map (λ entry, Log (fst entry) (snd entry)) logs) = [].
Proof. induction logs as [|entry logs IH]; [done|]. simpl. exact IH. Qed.

Section Lifecycle.
Variable isLivekitFocus : JsObject → bool.
Variable isLivekitFocusConfig : JsObject → bool.
Variable env : Env.

Ltac unfold_lifecycle :=
  unfold enterRTCSessionOrError, enterRTCSession, leaveRTCSession,
    widgetPostHangupProcedure, await_opt, call, log, emit;
  unfold_monad.

Ltac calls :=
  unfold session_calls; rewrite ?List.filter_app, ?session_calls_logs; simpl;
  rewrite ?app_nil_r, <- ?app_assoc; simpl; try done.

(** The options [enterRTCSession] hands to [joinRoomSession]. *)
Definition joinConfig_of (encryptMedia useNewMembershipManager
    useExperimentalToDeviceTransport : bool) : JoinConfig :=
  {| useNewMembershipManager := useNewMembershipManager;
     manageMediaKeys := encryptMedia;
     useLegacyMemberEvents :=
       negb <$> feature_use_device_session_member_events env;
     delayedLeaveEventDelayMs :=
       matrix_rtc_session env ≫= membership_server_side_expiry_timeout;
     networkErrorRetryMs :=
       matrix_rtc_session env ≫= membership_keep_alive_period;
     makeKeyDelay := matrix_rtc_session env ≫= key_rotation_on_leave_delay;
     useExperimentalToDeviceTransport := useExperimentalToDeviceTransport |}.

Lemma enterRTCSession_run s encryptMedia newManager toDevice t :
  let r := enterRTCSession isLivekitFocus isLivekitFocusConfig env s
             encryptMedia newManager toDevice t in
  match makePreferredLivekitFoci_promise isLivekitFocus isLivekitFocusConfig
          (discovery env) s (roomId s) with
  | Rejects e =>
      fst r = Threw e
      ∧ e = ThrownError (MatrixRTCFocusMissingError (default "" (getDomain s)))
      ∧ session_calls (snd r) = session_calls t
  | Resolves foci =>
      fst r = Normal tt
      ∧ foci ≠ []
      ∧ session_calls (snd r)
        = (session_calls t
           ++ JoinRoomSession foci makeActiveFocus
                (joinConfig_of encryptMedia newManager toDevice)
              :: (if widget env then [Send JoinCall] else []))%list
  end.
Proof.
  simpl. rewrite makePreferredLivekitFoci_promise_run.
  unfold_lifecycle. simpl.
  pose proof (makePreferredLivekitFoci_run isLivekitFocus isLivekitFocusConfig
                (discovery env) s (roomId s) []) as Hrun.
  destruct (makePreferredLivekitFoci _ _ _ s (roomId s) []) as [res logs].
  simpl in Hrun. subst res.
  case_bool_decide as Hlen; simpl.
  - repeat split. calls.
  - split; [|split].
    + destruct (widget env); simpl; [|done].
      by destruct (send env JoinCall) as [[]|?].
    + intros Heq. by rewrite Heq in Hlen.
    + unfold joinConfig_of.
      destruct (widget env); simpl; [|calls].
      destruct (send env JoinCall) as [[]|?]; simpl; calls.
Qed.

(** X15: [enterRTCSession] calls [joinRoomSession] exactly when the focus
    resolution succeeds: once, with the resolved list (which is never
    empty), the active focus of [makeActiveFocus] and the options built from
    the arguments and the config; [useLegacyMemberEvents] is the negation of
    the feature flag and absent without it.  In a widget [JoinCall] is sent
    afterwards, and a failure to send it is not passed on.  When the
    resolution is rejected, with [MatrixRTCFocusMissingError], the function
    rejects with it and calls neither the session nor the widget. *)
Theorem enterRTCSession_joins_once_foci_are_found
    s encryptMedia newManager toDevice t :
  let r := enterRTCSession isLivekitFocus isLivekitFocusConfig env s
             encryptMedia newManager toDevice t in
  match makePreferredLivekitFoci_promise isLivekitFocus isLivekitFocusConfig
          (discovery env) s (roomId s) with
  | Rejects e =>
      fst r = Threw e
      ∧ e = ThrownError (MatrixRTCFocusMissingError (default "" (getDomain s)))
      ∧ session_calls (snd r) = session_calls t
  | Resolves foci =>
      fst r = Normal tt
      ∧ foci ≠ []
      ∧ session_calls (snd r)
        = (session_calls t
           ++ JoinRoomSession foci makeActiveFocus
                (joinConfig_of encryptMedia newManager toDevice)
              :: (if widget env then [Send JoinCall] else []))%list
  end.
Proof. apply enterRTCSession_run. Qed.

(** X16: [enterRTCSessionOrError] never rejects.  When the focus resolution
    fails it hands [MatrixRTCFocusMissingError] for the session's domain to
    [setExternalError] and calls nothing else; otherwise it sets no error
    and joins as [enterRTCSession] does. *)
Theorem enterRTCSessionOrError_surfaces_missing_focus
    s perParticipantE2EE newManager toDevice t :
  let r := enterRTCSessionOrError isLivekitFocus isLivekitFocusConfig env s
             perParticipantE2EE newManager toDevice t in
  fst r = Normal tt
  ∧ session_calls (snd r)
    = (session_calls t
       ++ match makePreferredLivekitFoci_promise isLivekitFocus
                  isLivekitFocusConfig (discovery env) s (roomId s) with
          | Rejects _ =>
              [SetExternalError
                 (MatrixRTCFocusMissingError (default "" (getDomain s)))]
          | Resolves foci =>
              JoinRoomSession foci makeActiveFocus
                (joinConfig_of perParticipantE2EE newManager toDevice)
              :: (if widget env then [Send JoinCall] else [])
          end)%list.
Proof.
  simpl.
  pose proof (enterRTCSession_run s perParticipantE2EE newManager toDevice t)
    as Henter.
  simpl in Henter.
  unfold enterRTCSessionOrError. unfold_monad.
  destruct (enterRTCSession _ _ _ s _ _ _ t) as [res t'].
  destruct (makePreferredLivekitFoci_promise _ _ _ s (roomId s)) as [foci|e0];
    simpl in Henter.
  - by destruct Henter as (-> & Hne & Hcalls).
  - destruct Henter as (-> & -> & Hcalls). simpl.
    unfold emit. unfold_monad. simpl. split; [done|].
    unfold session_calls in *. by rewrite List.filter_app, Hcalls.
Qed.

(** The calls of [leaveRTCSession] on a widget whose host answers. *)
Definition hangup_calls (cause : HangupCause) : list Event :=
  [LeaveRoomSession; SetAlwaysOnScreen false; Send HangupCall]
  ++ (if bool_decide (cause = user) && negb (returnToLobby env)
      then [Send Close; TransportStop] else []).

(** X17: in a widget, once [leaveRoomSession] and [promiseBeforeHangup]
    have resolved, [leaveRTCSession] resolves whatever the widget's host
    answers: it has left the session, reset [alwaysOnScreen], sent
    [HangupCall] and, exactly when the cause is "user" and [returnToLobby]
    is off, sent [Close] and stopped the transport, in this order. *)
Theorem leaveRTCSession_hangs_up_the_widget cause promiseBeforeHangup left t :
  widget env = true →
  leaveRoomSession env = Resolves left →
  (∀ p, promiseBeforeHangup = Some p → p = Resolves tt) →
  let r := leaveRTCSession env cause promiseBeforeHangup t in
  fst r = Normal tt
  ∧ session_calls (snd r) = (session_calls t ++ hangup_calls cause)%list.
Proof.
  intros Hw Hleave Hp. unfold hangup_calls.
  unfold_lifecycle. simpl. rewrite Hw, Hleave. simpl.
  assert (promiseBeforeHangup = None ∨ promiseBeforeHangup = Some (Resolves tt))
    as [-> | ->].
  { destruct promiseBeforeHangup as [p|]; [|by left].
    right. by rewrite (Hp p eq_refl). }
  all: destruct (setAlwaysOnScreen env false) as [?|?]; simpl.
  all: destruct (send env HangupCall) as [[]|?]; simpl.
  all: destruct (bool_decide (cause = user) && negb (returnToLobby env)); simpl.
  all: try (destruct (send env Close) as [[]|?]; simpl).
  all: split; [done|calls].
Qed.

(** X18: [leaveRTCSession] stops at the first promise that is rejected and
    rejects with its reason: nothing follows a rejected [leaveRoomSession],
    and after a rejected [promiseBeforeHangup] no [HangupCall] is sent (in a
    widget only [alwaysOnScreen] was reset).  Outside a widget the session
    is left and nothing else is called. *)
Theorem leaveRTCSession_stops_at_a_failure cause promiseBeforeHangup t e :
  let r := leaveRTCSession env cause promiseBeforeHangup t in
  (leaveRoomSession env = Rejects e →
   fst r = Threw e
   ∧ session_calls (snd r) = (session_calls t ++ [LeaveRoomSession])%list)
  ∧ (∀ left, leaveRoomSession env = Resolves left →
     promiseBeforeHangup = Some (Rejects e) →
     fst r = Threw e
     ∧ session_calls (snd r)
       = (session_calls t ++ LeaveRoomSession
          :: (if widget env then [SetAlwaysOnScreen false] else []))%list)
  ∧ (∀ left, leaveRoomSession env = Resolves left →
     widget env = false →
     session_calls (snd r) = (session_calls t ++ [LeaveRoomSession])%list).
Proof.
  simpl. split; [|split].
  - intros Hleave. unfold_lifecycle. simpl. rewrite Hleave. simpl.
    split; [done|calls].
  - intros left Hleave ->. unfold_lifecycle. simpl. rewrite Hleave. simpl.
    destruct (widget env); simpl; [|split; [done|calls]].
    destruct (setAlwaysOnScreen env false) as [?|?]; simpl.
    all: split; [done|calls].
  - intros left Hleave Hw. unfold_lifecycle. simpl. rewrite Hleave, Hw. simpl.
    destruct promiseBeforeHangup as [[[]|?]|]; simpl; calls.
Qed.

End Lifecycle.

(** A widget whose host answers nothing. *)
Definition silent_widget : Env :=
  {| widget := true;
     feature_use_device_session_member_events := None;
     matrix_rtc_session := None;
     setAlwaysOnScreen := λ _, Rejects (ThrownValue "timeout");
     send := λ _, Rejects (ThrownValue "timeout");
     leaveRoomSession := Resolves true;
     returnToLobby := false;
     discovery := env_unconfigured |}.

Lemma leaveRTCSession_hangs_up_the_widget_witness :
  fst (leaveRTCSession silent_widget user None []) = Normal tt
  ∧ session_calls (snd (leaveRTCSession silent_widget user None []))
    = [ LeaveRoomSession; SetAlwaysOnScreen false; Send HangupCall;
        Send Close; TransportStop ].
Proof.
  apply (leaveRTCSession_hangs_up_the_widget silent_widget user None true []).
  - reflexivity.
  - reflexivity.
  - intros p Hp. discriminate Hp.
Defined.

End RtcSessionLifecycle_Facts.

(** ** livekit/openIDSFU.ts: the hook *)

Module UseOpenIDSFU_Facts.
Import OpenIDSFU OpenIDSFU_Facts UseOpenIDSFU.

(** What a response yields: the credentials of a successful one whose body
    could be read. *)
Definition credentials (r : Settled Response) : option SFUConfig :=
  match r with
  | Resolves res =>
      if ok res then
        match json res with
        | Resolves cfg => Some cfg
        | Rejects _ => None
        end
      else None
  | Rejects _ => None
  end.

(** X19: with an active focus, the effect of [useOpenIDSFU] shows the error
    boundary exactly when the OpenID token could not be obtained, with a
    [FailToGetOpenIdToken] wrapping the one [getSFUConfigWithOpenID]
    rejected with, and then leaves [sfuConfig] as it was.  With a token it
    shows no error and stores what the exchange yields: the body of a
    successful response, and undefined when the request failed, was refused
    or carried an unreadable body. *)
Theorem useOpenIDSFU_effect_outcome fetch client focus w :
  let w' := useOpenIDSFU_effect fetch client (Some focus) w in
  match getOpenIdToken_withRetry client with
  | Rejects t =>
      boundaryError w' = Some (FailToGetOpenIdToken (FailToGetOpenIdToken
        match t with
        | ThrownError e => e
        | ThrownValue _ => Error_ "Unknown error"
        end))
      ∧ sfuConfig w' = sfuConfig w
  | Resolves token =>
      boundaryError w' = boundaryError w
      ∧ sfuConfig w' = credentials (fetch (request_of client focus token))
  end.
Proof.
  unfold useOpenIDSFU_effect, getSFUConfigWithOpenID, getLiveKitJWT, log.
  simpl.
  destruct (getOpenIdToken_withRetry client) as [token|t]; unfold_monad; simpl.
  - fold (request_of client focus token). unfold credentials.
    destruct (fetch (request_of client focus token)) as [res|e]; simpl; [|done].
    destruct (ok res); simpl; [|done].
    by destruct (json res).
  - done.
Qed.

End UseOpenIDSFU_Facts.

(** ** room/useActiveFocus.ts *)

Module ActiveFocus_Facts.
Import RtcSessionHelpers ActiveFocus.

Section Focus.
Variable isLivekitFocus : JsObject → bool.

(** A report the hook takes up: no focus, or a LiveKit one. *)
Definition acceptable (f : option JsObject) : bool :=
  match f with
  | Some f => isLivekitFocus f
  | None => true
  end.

Lemma initialFocus_acceptable f :
  acceptable (initialFocus isLivekitFocus f) = true.
Proof.
  destruct f as [f|]; simpl; [|done].
  destruct (isLivekitFocus f) eqn:Hf; simpl; done.
Qed.

Lemma onMembershipsChanged_run report w :
  onMembershipsChanged isLivekitFocus report w
  = (Normal tt,
     if acceptable report && negb (bool_decide (subscribed w = report))
     then {| activeFocus := report; subscribed := subscribed w;
             logs := (logs w ++ [(LogWarn, "Got new active focus from membership")])%list |}
     else w).
Proof.
  unfold onMembershipsChanged, deepCompare. unfold_monad.
  destruct report as [f|]; simpl.
  - destruct (isLivekitFocus f); simpl; [|done].
    by destruct (bool_decide (subscribed w = Some f)).
  - by destruct (bool_decide (subscribed w = None)).
Qed.

Lemma last_filter_cons {A} (p : A → bool) x l d :
  default d (last (List.filter p (x :: l)))
  = default (if p x then x else d) (last (List.filter p l)).
Proof.
  simpl. destruct (p x); [|done].
  destruct (List.filter p l) as [|y l'] eqn:Hl; [done|].
  rewrite last_cons. by destruct (last (y :: l')).
Qed.

(** Any interleaving of reports and renders. *)
Lemma steps_run steps w :
  acceptable (activeFocus w) = true →
  acceptable (subscribed w) = true →
  ∃ us w',
    mapM (step isLivekitFocus) steps w = (Normal us, w')
    ∧ acceptable (activeFocus w') = true
    ∧ acceptable (subscribed w') = true
    ∧ (activeFocus w' = activeFocus w
       ∨ MembershipsChanged (activeFocus w') ∈ steps).
Proof.
  revert w. induction steps as [|s steps IH]; intros w Ha Hs.
  - exists [], w. simpl. repeat split; try done. by left.
  - simpl. unfold_monad.
    assert (∃ w1, step isLivekitFocus s w = (Normal tt, w1)
                  ∧ acceptable (activeFocus w1) = true
                  ∧ acceptable (subscribed w1) = true
                  ∧ (activeFocus w1 = activeFocus w
                     ∨ s = MembershipsChanged (activeFocus w1)))
      as (w1 & -> & Ha1 & Hs1 & Hfrom1).
    { destruct s as [report|]; simpl.
      - rewrite onMembershipsChanged_run.
        destruct (acceptable report) eqn:Hacc; simpl.
        + case_bool_decide; simpl; eexists; (split; [done|]); simpl;
            repeat split; auto.
        + exists w. repeat split; auto.
      - eexists. split; [done|]. simpl. repeat split; auto. }
    destruct (IH w1 Ha1 Hs1) as (us & w2 & Hrun & Ha2 & Hs2 & Hfrom2).
    unfold_monad. rewrite Hrun. simpl.
    exists (tt :: us), w2. split; [done|]. split; [done|]. split; [done|].
    destruct Hfrom2 as [Heq|Hin].
    + destruct Hfrom1 as [Heq1| ->].
      * left. congruence.
      * right. rewrite Heq. apply elem_of_cons. by left.
    + right. apply elem_of_cons. by right.
Qed.

(** A report after which the component is rendered. *)
Definition reportAndRender (report : option JsObject) : M World unit :=
  onMembershipsChanged isLivekitFocus report;; render.

Lemma reportAndRender_run report w :
  subscribed w = activeFocus w →
  ∃ w', reportAndRender report w = (Normal tt, w')
        ∧ subscribed w' = activeFocus w'
        ∧ activeFocus w' = (if acceptable report then report else activeFocus w)
        ∧ (length (logs w') ≤ length (logs w) + 1)%nat.
Proof.
  intros Hw. unfold reportAndRender, render. unfold_monad.
  rewrite onMembershipsChanged_run. simpl.
  eexists. split; [done|]. simpl. split; [done|]. rewrite Hw. split.
  - destruct (acceptable report); simpl; [|done]. by case_bool_decide.
  - destruct (_ && _); simpl; rewrite ?length_app; simpl; lia.
Qed.

Lemma rendered_reports_run reports w :
  subscribed w = activeFocus w →
  ∃ us w',
    mapM reportAndRender reports w = (Normal us, w')
    ∧ subscribed w' = activeFocus w'
    ∧ activeFocus w'
      = default (activeFocus w) (last (List.filter acceptable reports))
    ∧ (length (logs w') ≤ length (logs w) + length reports)%nat.
Proof.
  revert w. induction reports as [|report reports IH]; intros w Hw.
  - exists [], w. simpl. split; [done|]. split; [done|]. split; [done|lia].
  - rewrite last_filter_cons. simpl. unfold_monad.
    destruct (reportAndRender_run report w Hw) as (w1 & -> & Hs1 & Hf1 & Hl1).
    destruct (IH w1 Hs1) as (us & w2 & Hrun & Hs2 & Hfoc & Hlogs).
    unfold_monad. rewrite Hrun. simpl.
    exists (tt :: us), w2. split; [done|]. split; [done|].
    rewrite Hfoc, Hf1. split; [done|lia].
Qed.

(** X20: in any interleaving of membership changes and renders, the focus
    [useActiveLivekitFocus] holds is undefined or a LiveKit focus, and it
    is the initial one or one that was reported: reports of other foci are
    ignored.  When the component is rendered between the changes, the focus
    held is the last reported one that is undefined or a LiveKit focus, and
    at most one warning is logged per change.  Without a render in between
    the callback compares with the focus of its own render: after a change
    to a focus and a change back, the hook still holds the former. *)
Theorem activeFocus_follows_livekit_reports f0 :
  (∀ steps,
     let w := snd (mapM (step isLivekitFocus) steps
                     (initial_World isLivekitFocus f0)) in
     acceptable (activeFocus w) = true
     ∧ (activeFocus w = initialFocus isLivekitFocus f0
        ∨ MembershipsChanged (activeFocus w) ∈ steps))
  ∧ (∀ reports,
       let w := snd (mapM (λ report,
                       onMembershipsChanged isLivekitFocus report;; render)
                       reports (initial_World isLivekitFocus f0)) in
       activeFocus w
       = default (initialFocus isLivekitFocus f0)
           (last (List.filter acceptable reports))
       ∧ (length (logs w) ≤ length reports)%nat)
  ∧ (∀ F0 F1,
       isLivekitFocus F0 = true → isLivekitFocus F1 = true → F0 ≠ F1 →
       activeFocus
         (snd ((onMembershipsChanged isLivekitFocus (Some F1);;
                onMembershipsChanged isLivekitFocus (Some F0))
                 (initial_World isLivekitFocus (Some F0))))
       = Some F1).
Proof.
  split; [|split].
  - intros steps. simpl.
    destruct (steps_run steps (initial_World isLivekitFocus f0))
      as (us & w' & -> & Ha & _ & Hfrom);
      [apply initialFocus_acceptable..|].
    done.
  - intros reports. simpl.
    change (λ report, onMembershipsChanged isLivekitFocus report;; render)
      with reportAndRender.
    destruct (rendered_reports_run reports (initial_World isLivekitFocus f0))
      as (us & w' & -> & _ & Hfoc & Hlogs); [done|].
    done.
  - intros F0 F1 H0 H1 Hne. unfold_monad.
    rewrite onMembershipsChanged_run. simpl. rewrite H0, H1. simpl.
    rewrite bool_decide_eq_false_2 by congruence. simpl.
    rewrite onMembershipsChanged_run. simpl. rewrite H0. simpl.
    by rewrite bool_decide_eq_true_2.
Qed.

End Focus.
End ActiveFocus_Facts.

(** ** livekit/useLivekit.ts: the device synchronisation *)

Module DeviceSync_Facts.
Import OpenIDSFU DeviceSync.

Definition isDeviceCall (e : Event) : bool :=
  match e with
  | RestartTrack | SwitchActiveDevice _ _ => true
  | Log _ _ => false
  end.

Definition device_calls (t : list Event) : list Event :=
  List.filter isDeviceCall t.

(** The calls made for a kind of device: a switch of that kind, and for the
    audio input the restart of the microphone track. *)
Definition isCallFor (kind : MediaDeviceKind) (e : Event) : bool :=
  match e with
  | RestartTrack => bool_decide (kind = audioinput)
  | SwitchActiveDevice k _ => bool_decide (k = kind)
  | Log _ _ => false
  end.

(** The handle of a kind. *)
Definition handle_of (devices : MediaDevices) (kind : MediaDeviceKind)
  : MediaDeviceHandle :=
  match kind with
  | audioinput => audioInput devices
  | audiooutput => audioOutput devices
  | videoinput => videoInput devices
  end.

Section Devices.
Variable env : Env.

(** The browser's default microphone is selected and captured. *)
Definition follows_default (kind : MediaDeviceKind)
    (device : MediaDeviceHandle) : Prop :=
  selectedId device = Some "default" ∧ kind = audioinput
  ∧ audioCaptureDefaults_deviceId env = Some "default".

Ltac unfold_sync :=
  unfold syncDevices, syncDevice, log, emit; unfold_monad.

Lemma syncDevice_run kind device t :
  ∃ new,
    syncDevice env kind device t = (Normal tt, (t ++ new)%list)
    ∧ (length (device_calls new) ≤ 1)%nat
    ∧ (∀ k, (length (List.filter (isCallFor k) new)
             ≤ if bool_decide (k = kind) then 1 else 0)%nat)
    ∧ (RestartTrack ∈ new →
       follows_default kind device
       ∧ ∃ track, activeMicTrack env = Some track
                  ∧ readyState track ≠ "ended"
                  ∧ selectedGroupId device ≠ groupId track)
    ∧ (∀ k id, SwitchActiveDevice k id ∈ new →
       k = kind ∧ selectedId device = Some id
       ∧ getActiveDevice env kind ≠ Some id
       ∧ ¬ follows_default kind device).
Proof.
  unfold syncDevice, follows_default, strict_eq, log, emit. unfold_monad.
  repeat case_bool_decide; simpl.
  all: repeat match goal with
       | |- context [activeMicTrack env] =>
           destruct (activeMicTrack env) as [track|] eqn:?
       | |- context [restartTrack env] =>
           destruct (restartTrack env) as [[[]|?]|] eqn:?
       | |- context [selectedId ?d] =>
           destruct (selectedId d) as [id|] eqn:?
       | |- context [switchActiveDevice env ?k ?i] =>
           destruct (switchActiveDevice env k i) as [?|?] eqn:?
       | |- context [bool_decide ?P] => destruct (bool_decide_reflect P)
       end; simpl.
  all: try (exists []; rewrite app_nil_r; split; [reflexivity|]).
  all: try (eexists; split; [rewrite <- ?app_assoc; reflexivity|]).
  all: simpl; split; [lia|].
  all: split; [intros k; simpl; repeat case_bool_decide; simpl;
               first [lia | congruence]|].
  all: split; [intros Hin | intros k' id' Hin];
    repeat (apply elem_of_cons in Hin as [Hin|Hin]; try discriminate Hin);
    try apply elem_of_nil in Hin; try done.
  all: try (injection Hin as -> ->).
  all: repeat split; try done.
  all: try (eexists; repeat split; done).
  all: try (by intros (? & ? & ?)).
  all: try (intros Heq; by injection Heq).
Qed.

(** X14: the device effect calls nothing unless the room is connected and
    the audio devices are not controlled from outside; else it makes at
    most one call for each kind of device (a switch of that kind or, for the
    audio input, the restart of the microphone track), hence at most three
    calls.  It switches a kind to the selected
    device only when the room's active device of that kind is another one,
    and never for the microphone that follows the browser's default; it
    restarts the microphone track only in that case, when the track is
    still live and belongs to another group than the selected default. *)
Theorem syncDevices_calls connected controlled devices t :
  let r := syncDevices env connected controlled devices t in
  ∃ new,
    r = (Normal tt, (t ++ new)%list)
    ∧ (∀ kind, (length (List.filter (isCallFor kind) new) ≤ 1)%nat)
    ∧ (length (device_calls new) ≤ 3)%nat
    ∧ (connected = false ∨ controlled = true → new = [])
    ∧ (RestartTrack ∈ new →
       follows_default audioinput (audioInput devices)
       ∧ ∃ track, activeMicTrack env = Some track
                  ∧ readyState track ≠ "ended"
                  ∧ selectedGroupId (audioInput devices) ≠ groupId track)
    ∧ (∀ kind id, SwitchActiveDevice kind id ∈ new →
       selectedId (handle_of devices kind) = Some id
       ∧ getActiveDevice env kind ≠ Some id
       ∧ ¬ follows_default kind (handle_of devices kind)).
Proof.
  simpl. unfold syncDevices.
  destruct (connected && negb controlled) eqn:Hrun; simpl.
  - apply andb_true_iff in Hrun as [-> ->%negb_true_iff].
    unfold_monad.
    destruct (syncDevice_run audioinput (audioInput devices) t)
      as (n1 & -> & Hl1 & Hk1 & Hr1 & Hs1).
    destruct (syncDevice_run audiooutput (audioOutput devices) (t ++ n1))
      as (n2 & -> & Hl2 & Hk2 & Hr2 & Hs2).
    destruct (syncDevice_run videoinput (videoInput devices) ((t ++ n1) ++ n2))
      as (n3 & -> & Hl3 & Hk3 & Hr3 & Hs3).
    exists (n1 ++ n2 ++ n3)%list.
    split; [by rewrite !app_assoc|].
    split.
    { intros kind. rewrite !List.filter_app, !length_app.
      specialize (Hk1 kind). specialize (Hk2 kind). specialize (Hk3 kind).
      destruct kind; simpl in *; lia. }
    split.
    { unfold device_calls in *. rewrite !List.filter_app, !length_app. lia. }
    split; [by intros [?|?]|].
    split.
    + intros [Hin|[Hin|Hin]%elem_of_app]%elem_of_app.
      * by apply Hr1.
      * by destruct (Hr2 Hin) as [(_ & ? & _) _].
      * by destruct (Hr3 Hin) as [(_ & ? & _) _].
    + intros kind id [Hin|[Hin|Hin]%elem_of_app]%elem_of_app.
      * by destruct (Hs1 _ _ Hin) as (-> & ? & ? & ?).
      * by destruct (Hs2 _ _ Hin) as (-> & ? & ? & ?).
      * by destruct (Hs3 _ _ Hin) as (-> & ? & ? & ?).
  - exists []. rewrite app_nil_r. split; [done|].
    split; [intros kind; simpl; lia|]. split; [simpl; lia|].
    split; [done|].
    split; [by intros ?%elem_of_nil | by intros ?? ?%elem_of_nil].
Qed.

End Devices.
End DeviceSync_Facts.

(** ** room/MuteStates.ts: the widget's mute requests *)

Module MuteStates_Facts.
Import MuteStates.


End MuteStates_Facts.

(** ** livekit/MatrixAudioRenderer.tsx *)

Module MatrixAudioRenderer_Facts.
Import MatrixAudioRenderer.










End MatrixAudioRenderer_Facts.
